(** * The NewRelic output plugin of telegraf: aggregation and transport

    A shallow embedding of [plugins/outputs/newrelic/newrelic.go].

    - Go strings are byte strings: [string].
    - Go maps ([map[string]string], [map[string]NRMetric], ...) are [gmap]s;
      a [range] over a map is a [map_fold] (Go leaves the order open, and the
      loops of this plugin that write to a map touch one key per entry).
    - [float64] is the kernel's binary64 type [float]; [int] is a [Z] with
      its 64-bit wrap-around written out.
    - [fmt.Errorf] results are the constructors of [GoError]; [Error_msg]
      renders the text.
    - The operating system ([os.Hostname], [os.Getpid]), the HTTP client and
      the text level of [encoding/json] are outside the repository: they are
      arguments of the functions that call them. *)

From Stdlib Require Import ZArith Ascii String Floats Uint63.
From stdpp Require Import gmap strings list fin_maps sorting pretty.

Open Scope Z_scope.
Set Warnings "-clear-no-such-hyp".

(** ** Strings *)

Module Str.

(** [c] occurs in [s]. *)
Fixpoint hasChar (c : ascii) (s : string) : bool :=
  match s with
  | EmptyString => false
  | String d s' => if Ascii.eqb c d then true else hasChar c s'
  end.

(** [strings.Join(parts, sep)] *)
Fixpoint Join (parts : list string) (sep : string) : string :=
  match parts with
  | [] => ""
  | [p] => p
  | p :: ps => p +:+ sep +:+ Join ps sep
  end.

(** [strings.NewReplacer] with one-byte patterns: the table lists the
    (old, new) pairs in argument order, and the first pair whose pattern is
    the byte wins. *)
Fixpoint replaceByte (table : list (ascii * string)) (c : ascii) : string :=
  match table with
  | [] => String c EmptyString
  | (old, new) :: rest =>
      if Ascii.eqb c old then new else replaceByte rest c
  end.

(** [Replacer.Replace]: every byte is looked up on its own, so the output
    of one replacement is never scanned again. *)
Fixpoint Replace (table : list (ascii * string)) (s : string) : string :=
  match s with
  | EmptyString => EmptyString
  | String c s' => replaceByte table c +:+ Replace table s'
  end.

End Str.

(** ** Sanitization and the canonical tag string *)

Definition sanitizedChars : list (ascii * string) :=
  [ ("/"%char, "_"); (" "%char, ""); ("%"%char, "Percent"); (":"%char, "_");
    ("\"%char, "_"); ("["%char, ""); ("]"%char, ""); ("."%char, "");
    ("#"%char, ""); ("_"%char, "") ].

Definition sanitize (s : string) : string := Str.Replace sanitizedChars s.

(** The keys of [buildTags]: every key but "host", sorted as [sort.Strings]
    does (bytewise). *)
Definition tagKeys (tags : gmap string string) : list string :=
  merge_sort String.le (filter (λ k, k ≠ "host") (map_to_list tags).*1).

(** [tag_value] for the tag value [v]. *)
Definition tagValue (v : string) : string :=
  if String.eqb v "/" then "ROOT" else sanitize v.

(** The body of the second loop of [buildTags], at index [i]. *)
Definition tagStep (tags : gmap string string)
    (i : nat) (k : string) (tag_str : string) : string :=
  let tag_value := tagValue (default "" (tags !! k)) in
  if Nat.eqb i 0 then tag_str +:+ tag_value
  else tag_str +:+ "/" +:+ tag_value.

Fixpoint tagLoop (tags : gmap string string)
    (i : nat) (keys : list string) (tag_str : string) : string :=
  match keys with
  | [] => tag_str
  | k :: keys' => tagLoop tags (S i) keys' (tagStep tags i k tag_str)
  end.

Definition buildTags (tags : gmap string string) : string :=
  tagLoop tags 0 (tagKeys tags) "".

(** ** Data model *)

(** [int]: 64-bit two's complement. *)
Definition wrapInt (z : Z) : Z := (z + 2 ^ 63) `mod` 2 ^ 64 - 2 ^ 63.

(** [float64(t)] for a signed integer [t] of at most 64 bits (rounds to
    nearest, ties to even). *)
Definition float64_of_int (z : Z) : float :=
  if z =? - 2 ^ 63 then (- 9223372036854775808)%float
  else if z <? 0 then (- PrimFloat.of_uint63 (Uint63.of_Z (- z)))%float
  else PrimFloat.of_uint63 (Uint63.of_Z z).

(** The dynamic type and value of a field ([interface{}]): the five kinds
    of types [serialize] has a case for, the other numeric types of Go and
    strings, which reach the [default] branch, and [VOther] for every other
    type. *)
Inductive FieldValue : Type :=
  | VInt (t : Z)
  | VInt32 (t : Z)
  | VInt64 (t : Z)
  | VFloat64 (t : float)
  | VBool (t : bool)
  | VInt8 (t : Z)
  | VInt16 (t : Z)
  | VUint (t : Z)
  | VUint8 (t : Z)
  | VUint16 (t : Z)
  | VUint32 (t : Z)
  | VUint64 (t : Z)
  | VFloat32 (t : float)
  | VString (t : string)
  | VOther.

Module telegraf.

(** What the plugin reads of a [telegraf.Metric]. *)
Record Metric : Type := {
  Name : string;
  Tags : gmap string string;
  Fields : gmap string FieldValue
}.

Definition HasTag (m : Metric) (key : string) : bool :=
  bool_decide (is_Some (Tags m !! key)).

End telegraf.

Record NRMetric : Type := {
  Count : Z;
  Total : float;
  Min : float;
  Max : float;
  SumOfSquares : float
}.

Record NRComponent : Type := {
  Name : string;
  GUID : string;
  Duration : Z;
  Metrics : gmap string NRMetric
}.

Record NRAgent : Type := {
  Host : string;
  Version : string;
  PID : Z
}.

Record NRRequest : Type := {
  Agent : NRAgent;
  Components : list NRComponent
}.

Record NRResponse : Type := {
  Error : string;
  Status : string
}.

Record Aggregator : Type := {
  Tags : string;
  Component : NRComponent
}.

Module NewRelic.

(** The plugin's struct; [client] is [true] once an [http.Client] has been
    stored in it. *)
Record t : Type := {
  URL : string;
  License : string;
  GUID : string;
  client : bool
}.

End NewRelic.

Definition newrelic_api : string :=
  "https://platform-api.newrelic.com/platform/v1/metrics".
Definition mimetype : string := "application/json".
Definition default_guid : string := "com.influxdata.telegraf".
Definition licence_header : string := "X-License-Key".
Definition prefix : string := "Component/".

(** ** serialize *)

(** The type switch of [serialize]: the value a field contributes, or [None]
    for the [default] branch ([continue]). *)
Definition fieldValue (v : FieldValue) : option float :=
  match v with
  | VInt t => Some (float64_of_int t)
  | VInt32 t => Some (float64_of_int t)
  | VInt64 t => Some (float64_of_int t)
  | VFloat64 t => Some t
  | VBool t => Some (if t then 1%float else 0%float)
  | _ => None
  end.

Definition newStat (value : float) : NRMetric :=
  {| Total := value; Count := 1; Min := value; Max := value;
     SumOfSquares := (value * value)%float |}.

Definition fieldPath (name tags k : string) : string :=
  prefix +:+
  Str.Join ([sanitize name] ++ (if String.eqb tags "" then [] else [tags])
            ++ [sanitize k]) "/".

(** One iteration of the loop of [serialize]. *)
Definition serializeStep (name tags : string)
    (k : string) (v : FieldValue) (values : gmap string NRMetric)
    : gmap string NRMetric :=
  match fieldValue v with
  | None => values
  | Some value => <[fieldPath name tags k := newStat value]> values
  end.

Definition serialize (m : telegraf.Metric) : gmap string NRMetric :=
  let tags := buildTags (telegraf.Tags m) in
  map_fold (serializeStep (telegraf.Name m) tags) ∅ (telegraf.Fields m).

(** ** equalsTags and BuildComponents *)

Definition equalsTags (lookupTable : gmap string Aggregator)
    (search : telegraf.Metric) : bool :=
  map_fold
    (λ name lookup found,
       found || (String.eqb (telegraf.Name search) name
                 && String.eqb (buildTags (telegraf.Tags search)) (Tags lookup)))
    false lookupTable.

(** The body of the merging loop: [t] is the entry read from the map, or the
    zero value when [exists] is false. *)
Definition mergeStat (old : option NRMetric) (v : NRMetric) : NRMetric :=
  let exists_ := bool_decide (is_Some old) in
  let t := default {| Count := 0; Total := 0; Min := 0; Max := 0;
                      SumOfSquares := 0 |} old in
  {| Count := wrapInt (Count t + 1);
     Total := (Total t + Total v)%float;
     SumOfSquares := (SumOfSquares t + SumOfSquares v)%float;
     Max := if negb exists_ || PrimFloat.ltb (Max t) (Total v)
            then Total v else Max t;
     Min := if negb exists_ || PrimFloat.ltb (Total v) (Min t)
            then Total v else Min t |}.

Definition withMetrics (a : Aggregator) (M : gmap string NRMetric)
    : Aggregator :=
  {| Tags := Tags a;
     Component := {| Name := Name (Component a);
                     GUID := GUID (Component a);
                     Duration := Duration (Component a);
                     Metrics := M |} |}.

(** "add metrics values" *)
Definition mergeMetrics (M new : gmap string NRMetric) : gmap string NRMetric :=
  map_fold (λ k v M, <[k := mergeStat (M !! k) v]> M) M new.

(** "add metrics to component" *)
Definition addMetrics (M new : gmap string NRMetric) : gmap string NRMetric :=
  map_fold (λ k v M, <[k := v]> M) M new.

(** The host of a new component: the sample's "host" tag, or else [host]
    ([request.Agent.Host]). *)
Definition effectiveHost (host : string) (metric : telegraf.Metric) : string :=
  if telegraf.HasTag metric "host"
  then default "" (telegraf.Tags metric !! "host")
  else host.

(** One iteration of the loop over the batch; [host] is
    [request.Agent.Host]. The map of [Metrics] is shared between the entry
    of the grouping map and its copies, so a write through
    [aggregator[name].Component.Metrics] is a write to the entry. *)
Definition buildStep (n : NewRelic.t) (host : string)
    (aggregator : gmap string Aggregator) (metric : telegraf.Metric)
    : gmap string Aggregator :=
  let name := telegraf.Name metric in
  match aggregator !! name with
  | Some a =>
      if equalsTags aggregator metric then
        <[name := withMetrics a
                    (mergeMetrics (Metrics (Component a)) (serialize metric))]>
          aggregator
      else
        <[name := withMetrics a
                    (addMetrics (Metrics (Component a)) (serialize metric))]>
          aggregator
  | None =>
      let host := effectiveHost host metric in
      let c := {| Name := host;
                  Duration := 60;
                  Metrics := serialize metric;
                  GUID := NewRelic.GUID n |} in
      <[name := {| Tags := buildTags (telegraf.Tags metric);
                   Component := c |}]> aggregator
  end.

Definition aggregate (n : NewRelic.t) (host : string)
    (metrics : list telegraf.Metric) : gmap string Aggregator :=
  foldl (buildStep n host) ∅ metrics.

Definition BuildComponents (n : NewRelic.t) (request : NRRequest)
    (metrics : list telegraf.Metric) : list NRComponent :=
  let aggregator := aggregate n (Host (Agent request)) metrics in
  map_fold (λ _ lookup temp, temp ++ [Component lookup]) [] aggregator.

(** The characters the replacer removes from every string: each pattern of
    [sanitizedChars] but the underscore, which is also a replacement. *)
Definition removedChars : list ascii :=
  ["/"; " "; "%"; ":"; "\"; "["; "]"; "."; "#"]%char.

(** The grouping key of the specification: the sample's name and its
    canonical tag string. *)
Definition groupKey (m : telegraf.Metric) : string * string :=
  (telegraf.Name m, buildTags (telegraf.Tags m)).

(** What a step keeps of an entry that exists already. *)
Definition sameIdentity (a a' : Aggregator) : Prop :=
  Tags a' = Tags a ∧
  Name (Component a') = Name (Component a) ∧
  GUID (Component a') = GUID (Component a) ∧
  Duration (Component a') = Duration (Component a) ∧
  dom (Metrics (Component a)) ⊆ dom (Metrics (Component a')).

(** The number of samples of [metrics] that have a field at path [p]. *)
Definition contributors (p : string) (metrics : list telegraf.Metric) : nat :=
  length (filter (λ s, is_Some (serialize s !! p)) metrics).

(** The state of the loop after the samples [seen], all of one name and
    one tag string. *)
Definition counted (name tags : string) (seen : list telegraf.Metric)
    (aggregator : gmap string Aggregator) : Prop :=
  ∃ a, aggregator !! name = Some a ∧ Tags a = tags ∧
       ∀ p, Count <$> (Metrics (Component a) !! p)
            = (if contributors p seen is O then None
               else Some (Z.of_nat (contributors p seen))).

(** The number of occurrences of [c] in [s]. *)
Fixpoint countChar (c : ascii) (s : string) : nat :=
  match s with
  | EmptyString => O
  | String d s' => ((if Ascii.eqb c d then 1 else 0) + countChar c s')%nat
  end.

(** The component [buildStep] creates for a sample of a new name. *)
Definition newComponent (n : NewRelic.t) (host : string)
    (metric : telegraf.Metric) : NRComponent :=
  {| Name := effectiveHost host metric;
     Duration := 60;
     Metrics := serialize metric;
     GUID := NewRelic.GUID n |}.

(** The value [x] is what some sample of [seen] named [name] has at the
    path [p]. *)
Definition contributedAt (seen : list telegraf.Metric)
    (name p : string) (x : float) : Prop :=
  ∃ s v, s ∈ seen ∧ telegraf.Name s = name ∧
         serialize s !! p = Some v ∧ Total v = x.

(** The sample with its tags replaced. *)
Definition withTags (m : telegraf.Metric) (tags : gmap string string)
    : telegraf.Metric :=
  {| telegraf.Name := telegraf.Name m;
     telegraf.Tags := tags;
     telegraf.Fields := telegraf.Fields m |}.

(** The number of samples of [seen] named [name] that have a field at the
    path [p]. *)
Definition contributorsOf (name p : string) (seen : list telegraf.Metric)
    : nat :=
  length (filter (λ s, telegraf.Name s = name ∧ is_Some (serialize s !! p))
                 seen).

(** The statistic of the path [p] after the samples [rest] have been merged
    one by one into [init]. *)
Definition pathFold (p : string) (init : option NRMetric)
    (rest : list telegraf.Metric) : option NRMetric :=
  foldl (λ acc s, match serialize s !! p with
                  | Some v => Some (mergeStat acc v)
                  | None => acc
                  end) init rest.

(** The integer a floating-point number is, when it is one: of a finite
    number with sign [s], mantissa [m] and exponent [e] the value is
    [m * 2^e], negated when [s] is set. *)
Definition SF2Z (x : spec_float) : option Z :=
  match x with
  | S754_zero _ => Some 0
  | S754_finite s m e =>
      if 0 <=? e then Some (cond_Zopp s (Z.pos m * 2 ^ e))
      else if (Z.pos m) `mod` 2 ^ (- e) =? 0
           then Some (cond_Zopp s (Z.pos m / 2 ^ (- e)))
           else None
  | _ => None
  end.

Definition float_to_Z (f : float) : option Z := SF2Z (Prim2SF f).

(** ** JSON values and the encoder

    [encoding/json] at the level of values: what [ejson.Marshal] writes for
    the structs of this plugin follows from their field tags. *)

#[warnings="-register-all"]
Inductive json : Type :=
  | JNull
  | JBool (b : bool)
  | JInt (z : Z)
  | JFloat (f : float)
  | JString (s : string)
  | JArray (elements : list json)
  | JObject (members : list (string * json)).

(** The value of the first member named [key]. *)
Definition member (key : string) (j : json) : option json :=
  match j with
  | JObject members => (list_find (λ kv, kv.1 = key) members) ≫= λ r, Some r.2.2
  | _ => None
  end.

Definition hasMember (key : string) (j : json) : bool :=
  bool_decide (is_Some (member key j)).

(** A [float64] is written as a number; NaN and the infinities make
    [Marshal] fail (UnsupportedValueError). *)
Definition marshalFloat (f : float) : option json :=
  if PrimFloat.is_finite f then Some (JFloat f) else None.

(** A [float64] field tagged [omitempty]: left out when it equals zero. *)
Definition marshalOptFloat (key : string) (f : float)
    : option (list (string * json)) :=
  if PrimFloat.is_zero f then Some []
  else j ← marshalFloat f; Some [(key, j)].

Definition marshalNRMetric (m : NRMetric) : option json :=
  total ← marshalFloat (Total m);
  min ← marshalOptFloat "min" (Min m);
  max ← marshalOptFloat "max" (Max m);
  sum_of_squares ← marshalOptFloat "sum_of_squares" (SumOfSquares m);
  Some (JObject ([("count", JInt (Count m)); ("total", total)]
                 ++ min ++ max ++ sum_of_squares)).

Definition keyLe : relation (string * NRMetric) := λ a b, String.le a.1 b.1.
#[global] Instance keyLe_dec : RelDecision keyLe.
Proof. intros a b. unfold keyLe. apply _. Defined.

(** A map is written as an object, its keys sorted. *)
Definition marshalMetrics (M : gmap string NRMetric) : option json :=
  members ← mapM (λ kv, j ← marshalNRMetric kv.2; Some (kv.1, j))
                 (merge_sort keyLe (map_to_list M));
  Some (JObject members).

(** [Duration] is tagged [string]: its decimal text, quoted. *)
Definition marshalNRComponent (c : NRComponent) : option json :=
  metrics ← marshalMetrics (Metrics c);
  Some (JObject [("name", JString (Name c));
                 ("guid", JString (GUID c));
                 ("duration", JString (pretty (Duration c)));
                 ("metrics", metrics)]).

Definition marshalNRAgent (a : NRAgent) : json :=
  JObject ([("host", JString (Host a)); ("version", JString (Version a))]
           ++ (if PID a =? 0 then [] else [("pid", JInt (PID a))])).

(** [Components] is either the nil slice (written as null) or the non-empty
    list [BuildComponents] returned. *)
Definition marshalNRRequest (r : NRRequest) : option json :=
  components ←
    match Components r with
    | [] => Some JNull
    | cs => l ← mapM marshalNRComponent cs; Some (JArray l)
    end;
  Some (JObject [("agent", marshalNRAgent (Agent r));
                 ("components", components)]).

(** What the encoder writes for one [NRMetric]: count and total, and each
    of min, max and sum_of_squares unless it is zero. *)
Definition metricShape (st : NRMetric) (jm : json) : Prop :=
  member "count" jm = Some (JInt (Count st)) ∧
  member "total" jm = Some (JFloat (Total st)) ∧
  member "min" jm
    = (if PrimFloat.is_zero (Min st) then None else Some (JFloat (Min st))) ∧
  member "max" jm
    = (if PrimFloat.is_zero (Max st) then None else Some (JFloat (Max st))) ∧
  member "sum_of_squares" jm
    = (if PrimFloat.is_zero (SumOfSquares st) then None
       else Some (JFloat (SumOfSquares st))).

(** ** Errors *)

Inductive GoError : Type :=
  | ErrLicence
  | ErrHostname (hostname err : string)
  | ErrMarshal (err : string)
  | ErrNewRequest (err : string)
  | ErrPost (err : string)
  | ErrUpdateAgent (code : Z)
  | ErrAuthentication
  | ErrTooLarge
  | ErrNotAvailable (code : Z)
  | ErrBadStatus (code : Z)
  | ErrBadResponse (body err : string)
  | ErrNewRelic (msg : string)
  | ErrStatusNotOk (status : string).

Definition nl : string := String (ascii_of_nat 10) EmptyString.

(** The text each [fmt.Errorf] call formats. *)
Definition Error_msg (e : GoError) : string :=
  match e with
  | ErrLicence => "Licence key is a required field for newrelic output"
  | ErrHostname hostname err =>
      "FAILED to get hostname: " +:+ hostname +:+ ", " +:+ err
  | ErrMarshal err => "unable to marshal request data: " +:+ err +:+ nl
  | ErrNewRequest err => "unable to create http.Request: " +:+ err +:+ nl
  | ErrPost err => "error POSTing metrics, " +:+ err +:+ nl
  | ErrUpdateAgent code => "Status " +:+ pretty code +:+ ": maybe update agent"
  | ErrAuthentication =>
      "Authentication error (no license key header, or invalid license key)."
  | ErrTooLarge =>
      "Request entity too large: Too many metrics were sent in one request"
  | ErrNotAvailable code =>
      "Status " +:+ pretty code +:+ ": Newrelic API not available"
  | ErrBadStatus code => "received bad status code: " +:+ pretty code +:+ nl
  | ErrBadResponse body err =>
      "received bad response data: " +:+ body +:+ " " +:+ err +:+ nl
  | ErrNewRelic msg => "NewRelic error: " +:+ msg +:+ nl
  | ErrStatusNotOk status => "NewRelic Status not ok: " +:+ status +:+ nl
  end.

(** ** Connect *)

(** What [Connect] asks of the operating system: the two results of
    [os.Hostname] and the result of [os.Getpid]. *)
Record OS : Type := {
  Hostname : string * option string;
  Getpid : Z
}.

Definition Connect (os : OS) (n : NewRelic.t) (request : NRRequest)
    : NewRelic.t * NRRequest * option GoError :=
  let n1 :=
    if String.eqb (NewRelic.URL n) ""
    then {| NewRelic.URL := newrelic_api;
            NewRelic.License := NewRelic.License n;
            NewRelic.GUID := NewRelic.GUID n;
            NewRelic.client := NewRelic.client n |}
    else n in
  if String.eqb (NewRelic.License n1) "" then (n1, request, Some ErrLicence)
  else
    let n2 :=
      {| NewRelic.URL := NewRelic.URL n1;
         NewRelic.License := NewRelic.License n1;
         NewRelic.GUID :=
           if String.eqb (NewRelic.GUID n1) "" then default_guid
           else NewRelic.GUID n1;
         NewRelic.client := true |} in
    match Hostname os with
    | (hostname, Some err) => (n2, request, Some (ErrHostname hostname err))
    | (hostname, None) =>
        (n2,
         {| Agent := {| PID := Getpid os; Version := "1.0.0";
                        Host := hostname |};
            Components := Components request |},
         None)
    end.

(** ** sendData and Write *)

Record HttpRequest : Type := {
  Method : string;
  ReqURL : string;
  Header : list (string * string);
  ReqBody : json
}.

Record HttpResponse : Type := {
  StatusCode : Z;
  Body : string
}.

(** The [switch] under [resp.StatusCode < 200 || resp.StatusCode > 209]. *)
Definition statusError (code : Z) : option GoError :=
  if (code <? 200) || (code >? 209) then
    if (code =? 400) || (code =? 404) || (code =? 405)
    then Some (ErrUpdateAgent code)
    else if code =? 403 then Some ErrAuthentication
    else if code =? 413 then Some ErrTooLarge
    else if (code =? 500) || (code =? 502) || (code =? 503) || (code =? 504)
    then Some (ErrNotAvailable code)
    else Some (ErrBadStatus code)
  else None.

Section Transport.

(** [http.NewRequest] fails on a URL it cannot parse. *)
Variable NewRequest_err : string → option string.
(** [n.client.Do]: a transport error or the response. *)
Variable Do : HttpRequest → string + HttpResponse.
(** [ejson.Unmarshal(body, &nrresp)] on the zero [NRResponse]: the
    decoder's error or the struct it filled. *)
Variable Unmarshal : string → string + NRResponse.

(** From [ioutil.ReadAll] to the end of [sendData]. *)
Definition checkBody (body : string) : option GoError :=
  match Unmarshal body with
  | inl err => Some (ErrBadResponse body err)
  | inr nrresp =>
      if negb (String.eqb (Error nrresp) "")
      then Some (ErrNewRelic (Error nrresp))
      else if negb (String.eqb (Status nrresp) "ok")
      then Some (ErrStatusNotOk (Status nrresp))
      else None
  end.

Definition buildRequest (n : NewRelic.t) (reqbody : json) : HttpRequest :=
  {| Method := "POST";
     ReqURL := NewRelic.URL n;
     Header := [("Content-Type", mimetype); ("Accept", mimetype);
                (licence_header, NewRelic.License n)];
     ReqBody := reqbody |}.

Definition sendData (n : NewRelic.t) (request : NRRequest)
    : option GoError :=
  match marshalNRRequest request with
  | None => Some (ErrMarshal "json: unsupported value")
  | Some reqbody =>
      match NewRequest_err (NewRelic.URL n) with
      | Some err => Some (ErrNewRequest err)
      | None =>
          match Do (buildRequest n reqbody) with
          | inl err => Some (ErrPost err)
          | inr resp =>
              match statusError (StatusCode resp) with
              | Some e => Some e
              | None => checkBody (Body resp)
              end
          end
      end
  end.

(** [Write] stores the components in the shared [request] and sends it. *)
Definition Write (n : NewRelic.t) (request : NRRequest)
    (metrics : list telegraf.Metric) : NRRequest * option GoError :=
  match metrics with
  | [] => (request, None)
  | _ =>
      let components := BuildComponents n request metrics in
      let request' := {| Agent := Agent request;
                         Components := components |} in
      (request', sendData n request')
  end.

End Transport.

(** ** The remaining methods of the plugin *)

Definition sampleConfig : string :=
  nl +:+ "## NewRelic license key" +:+ nl +:+
  "  license = " +:+ String (ascii_of_nat 34) (String (ascii_of_nat 34) "")
  +:+ nl +:+
  "  ## Your newrelic plugin identifier" +:+ nl +:+
  "  #guid = " +:+ String (ascii_of_nat 34) "com.influxdata.telegraf"
  +:+ String (ascii_of_nat 34) "" +:+ nl.

Definition Close (n : NewRelic.t) : option GoError := None.
Definition SampleConfig (n : NewRelic.t) : string := sampleConfig.
Definition Description (n : NewRelic.t) : string :=
  "Send telegraf metrics to newrelic plugin api".

(** The statistic can be written as JSON: its total is finite, and each of
    min, max and sum of squares is zero (and left out) or finite. *)
Definition encodable (st : NRMetric) : bool :=
  PrimFloat.is_finite (Total st)
  && (PrimFloat.is_zero (Min st) || PrimFloat.is_finite (Min st))
  && (PrimFloat.is_zero (Max st) || PrimFloat.is_finite (Max st))
  && (PrimFloat.is_zero (SumOfSquares st)
      || PrimFloat.is_finite (SumOfSquares st)).

(** ** The batch of [TestMultiplyWrite] *)

Module Examples.

Definition mk (name tag tagvalue : string) (fields : list (string * float))
    : telegraf.Metric :=
  {| telegraf.Name := name;
     telegraf.Tags := {[ tag := tagvalue ]};
     telegraf.Fields := list_to_map (prod_map id VFloat64 <$> fields) |}.

Definition m1 := mk "m1" "tag1" "tagvalue1" [("value1", 3); ("value2", 4)]%float.
Definition m2 := mk "m2" "tag2" "tagvalue2" [("v1", 6); ("v2", 8)]%float.
Definition m3 := mk "m1" "tag1" "tagvalue1" [("value1", 2); ("value2", 9)]%float.
Definition m4 := mk "m1" "tag1" "tagvalue2" [("value1", 1); ("value2", 2)]%float.
Definition m5 := mk "m1" "tag1" "tagvalue1" [("asdf1", 3); ("asdf2", 4)]%float.

(** Samples with the single field value1. *)
Definition s1 := mk "m1" "tag1" "tagvalue1" [("value1", 3)]%float.
Definition s2 := mk "m1" "tag1" "tagvalue1" [("value1", 2)]%float.
Definition b1 := mk "m1" "tag1" "tagvalue2" [("value1", 1)]%float.
Definition b2 := mk "m1" "tag1" "tagvalue2" [("value1", 5)]%float.

(** A later sample of the group of [s1] that names another host. *)
Definition s3 : telegraf.Metric :=
  {| telegraf.Name := "m1";
     telegraf.Tags := {[ "tag1" := "tagvalue1"; "host" := "web1" ]};
     telegraf.Fields := {[ "value1" := VFloat64 7 ]} |}.

(** A sample whose fields are zero, false, a string and an integer. *)
Definition z1 : telegraf.Metric :=
  {| telegraf.Name := "m1";
     telegraf.Tags := {[ "tag1" := "tagvalue1" ]};
     telegraf.Fields := {[ "idle" := VFloat64 0; "up" := VBool false;
                           "state" := VString "ok"; "n" := VInt64 4 ]} |}.

(** A sample whose fields have integer types without a case in
    [serialize]. *)
Definition u1 : telegraf.Metric :=
  {| telegraf.Name := "m1";
     telegraf.Tags := {[ "tag1" := "tagvalue1" ]};
     telegraf.Fields := {[ "n" := VUint64 7; "small" := VInt8 3 ]} |}.

Definition plugin : NewRelic.t :=
  {| NewRelic.URL := newrelic_api; NewRelic.License := "dummy";
     NewRelic.GUID := "test.sonica.telegraf"; NewRelic.client := true |}.

Definition request : NRRequest :=
  {| Agent := {| Host := "testhostname"; Version := "1.0.0"; PID := 42 |};
     Components := [] |}.

(** The bodies the servers of newrelic_test.go reply with ([Fprintln]
    ends them with a newline), and the body of the specification's
    scenario. *)
Definition dq : string := String (ascii_of_nat 34) EmptyString.
Definition quoted (s : string) : string := dq +:+ s +:+ dq.
Definition responseOK : string :=
  "{" +:+ quoted "status" +:+ ": " +:+ quoted "ok" +:+ "}".
Definition responseForceError : string :=
  "{" +:+ quoted "error" +:+ ":" +:+ quoted "force error" +:+ "}".
Definition statusOkBody : string :=
  "{" +:+ quoted "status" +:+ ":" +:+ quoted "ok" +:+ "}".

(** [ejson.Unmarshal] into an [NRResponse], on these bodies only: any
    other body is reported as an error here. *)
Definition cannedUnmarshal (body : string) : string + NRResponse :=
  if String.eqb body (responseOK +:+ nl) || String.eqb body statusOkBody
  then inr {| Error := ""; Status := "ok" |}
  else if String.eqb body (responseForceError +:+ nl)
  then inr {| Error := "force error"; Status := "" |}
  else inl "invalid character".

(** A server that answers every request with the given response, and a
    URL parser that accepts every URL. *)
Definition server (code : Z) (body : string)
    : HttpRequest → string + HttpResponse :=
  λ _, inr {| StatusCode := code; Body := body |}.
Definition anyURL : string → option string := λ _, None.

Definition machine : OS := {| Hostname := ("testhostname", None);
                              Getpid := 42 |}.
Definition noHostname : OS :=
  {| Hostname := ("", Some "hostname: not found"); Getpid := 42 |}.

(** The plugin before [Connect], without and with a licence key. *)
Definition unconfigured : NewRelic.t :=
  {| NewRelic.URL := ""; NewRelic.License := "";
     NewRelic.GUID := ""; NewRelic.client := false |}.
Definition licensed : NewRelic.t :=
  {| NewRelic.URL := ""; NewRelic.License := "dummy";
     NewRelic.GUID := ""; NewRelic.client := false |}.

(** The component of [s3; s1; b1] for a plugin of the given GUID: named
    by the "host" tag of [s3]; [s1] is merged, [b1] adds its path. *)
Definition web1Component (guid : string) : NRComponent :=
  {| Name := "web1"; GUID := guid; Duration := 60;
     Metrics :=
       list_to_map
         [("Component/m1/tagvalue1/value1",
           {| Count := 2; Total := 10; Min := 3; Max := 7;
              SumOfSquares := 58 |});
          ("Component/m1/tagvalue2/value1",
           {| Count := 1; Total := 1; Min := 1; Max := 1;
              SumOfSquares := 1 |})] |}.

(** The component of [s1; s2; b1; b2]: [s2] is merged into the path of
    [s1], [b1] adds a path and [b2] overwrites it. *)
Definition mixedComponent : NRComponent :=
  {| Name := "testhostname"; GUID := "test.sonica.telegraf";
     Duration := 60;
     Metrics :=
       list_to_map
         [("Component/m1/tagvalue1/value1",
           {| Count := 2; Total := 5; Min := 2; Max := 3;
              SumOfSquares := 13 |});
          ("Component/m1/tagvalue2/value1",
           {| Count := 1; Total := 5; Min := 5; Max := 5;
              SumOfSquares := 25 |})] |}.

End Examples.

(** * Sanitization *)

Section Sanitize.

Lemma hasChar_app c s1 s2 :
  Str.hasChar c (s1 +:+ s2) = Str.hasChar c s1 || Str.hasChar c s2.
Proof.
  induction s1 as [|d s1 IH]; simpl; [done|].
  destruct (Ascii.eqb c d); [done|apply IH].
Qed.

Lemma length_app_string s1 s2 :
  String.length (s1 +:+ s2) = (String.length s1 + String.length s2)%nat.
Proof. induction s1 as [|d s1 IH]; simpl; [done|by rewrite IH]. Qed.

(** Case analysis on the ten comparisons of [replaceByte sanitizedChars c]. *)
Ltac byte_cases c :=
  unfold sanitizedChars; cbn [Str.replaceByte];
  repeat match goal with
  | |- context [Ascii.eqb c ?d] =>
      destruct (Ascii.eqb_spec c d) as [->|?]
  end.

Ltac split_elem H :=
  repeat (apply elem_of_cons in H as [->|H]); [..|by apply elem_of_nil in H].

Lemma replaceByte_removed c d :
  d ∈ removedChars → Str.hasChar d (Str.replaceByte sanitizedChars c) = false.
Proof.
  intros Hd. unfold removedChars in Hd.
  byte_cases c; try (split_elem Hd; reflexivity).
  simpl. destruct (Ascii.eqb_spec d c) as [->|?]; [|done].
  split_elem Hd; congruence.
Qed.

Lemma sanitize_removed s d :
  d ∈ removedChars → Str.hasChar d (sanitize s) = false.
Proof.
  intros Hd. unfold sanitize.
  induction s as [|c s IH]; cbn [Str.Replace]; [done|].
  by rewrite hasChar_app, replaceByte_removed, IH.
Qed.

(** A string without any pattern is left as it is. *)
Lemma sanitize_clean t :
  (∀ d, d ∈ sanitizedChars.*1 → Str.hasChar d t = false) → sanitize t = t.
Proof.
  unfold sanitize. induction t as [|c t IH]; intros Hclean;
    cbn [Str.Replace]; [done|].
  assert (Hc : ∀ d, d ∈ sanitizedChars.*1 → d ≠ c ∧ Str.hasChar d t = false).
  { intros d Hd. specialize (Hclean d Hd). simpl in Hclean.
    destruct (Ascii.eqb_spec d c); [done|by split]. }
  rewrite IH by (intros d Hd; by apply Hc).
  assert (Hne : Forall (λ d, d ≠ c) sanitizedChars.*1).
  { apply Forall_forall. intros d Hd. by apply Hc. }
  cbn in Hne. repeat (apply Forall_cons in Hne as [? Hne]).
  assert (Hrep : Str.replaceByte sanitizedChars c = String c EmptyString).
  { byte_cases c; congruence. }
  by rewrite Hrep.
Qed.

(** Without a percent sign nothing grows, and an underscore is lost. *)
Lemma sanitize_length t :
  Str.hasChar "%" t = false →
  (String.length (sanitize t) ≤ String.length t)%nat ∧
  (Str.hasChar "_" t = true →
   (String.length (sanitize t) < String.length t)%nat).
Proof.
  unfold sanitize. induction t as [|c t IH]; [done|].
  cbn [Str.Replace Str.hasChar]. intros Hpc.
  destruct (Ascii.eqb_spec "%" c) as [|Hc]; [done|].
  destruct (IH Hpc) as [Hle Hlt].
  rewrite length_app_string.
  destruct (Ascii.eqb_spec "_" c) as [<-|Hu].
  - cbn. split; [lia|intros _; lia].
  - assert (String.length (Str.replaceByte sanitizedChars c) ≤ 1)%nat
      by (byte_cases c; cbn; (lia || congruence)).
    cbn [String.length]. split; [lia|]. intros Ht. specialize (Hlt Ht). lia.
Qed.

Lemma sanitize_twice s :
  sanitize (sanitize s) = sanitize s ↔ Str.hasChar "_" (sanitize s) = false.
Proof.
  split.
  - intros Heq. destruct (Str.hasChar "_" (sanitize s)) eqn:Hu; [|done].
    assert (Hpc : Str.hasChar "%" (sanitize s) = false).
    { apply sanitize_removed. unfold removedChars.
      do 2 apply list_elem_of_further. apply list_elem_of_here. }
    destruct (sanitize_length _ Hpc) as [_ Hlt].
    specialize (Hlt Hu). rewrite Heq in Hlt. lia.
  - intros Hu. apply sanitize_clean. intros d Hd. cbn in Hd.
    assert (d ∈ removedChars ∨ d = "_"%char) as [?| ->]; [|by apply sanitize_removed|done].
    unfold removedChars.
    repeat (apply elem_of_cons in Hd as [->|Hd]);
      [ .. | by apply elem_of_nil in Hd];
      first [ by right | left; repeat first [apply list_elem_of_here | apply list_elem_of_further] ].
Qed.

Lemma tagKeys_singleton k v :
  k ≠ "host" → tagKeys {[k := v]} = [k].
Proof.
  intros Hk. unfold tagKeys. rewrite map_to_list_singleton. cbn.
  rewrite decide_True by done. reflexivity.
Qed.

Lemma app_string_assoc s1 s2 s3 : (s1 +:+ s2) +:+ s3 = s1 +:+ (s2 +:+ s3).
Proof.
  induction s1 as [|c s1 IH]; [done|].
  change (String c ((s1 +:+ s2) +:+ s3) = String c (s1 +:+ s2 +:+ s3)).
  by rewrite IH.
Qed.

Lemma app_string_nil_r s : s +:+ "" = s.
Proof.
  induction s as [|c s IH]; [done|].
  change (String c (s +:+ "") = String c s). by rewrite IH.
Qed.

(** The loop of [buildTags] joins the tag values with "/", in the order
    of the sorted keys. *)
Lemma tagLoop_succ tags i keys tag_str :
  tagLoop tags (S i) keys tag_str
  = tag_str +:+
    foldr (λ k rest, "/" +:+ tagValue (default "" (tags !! k)) +:+ rest)
          "" keys.
Proof.
  revert i tag_str. induction keys as [|k keys IH]; intros i tag_str.
  - cbn. by rewrite app_string_nil_r.
  - cbn [tagLoop foldr]. rewrite IH. unfold tagStep. cbn [Nat.eqb].
    by rewrite !app_string_assoc.
Qed.

Lemma Join_cons v vs :
  Str.Join (v :: vs) "/" = v +:+ foldr (λ w rest, "/" +:+ w +:+ rest) "" vs.
Proof.
  revert v. induction vs as [|w vs IH]; intros v.
  - cbn. by rewrite app_string_nil_r.
  - change (Str.Join (v :: w :: vs) "/")
      with (v +:+ "/" +:+ Str.Join (w :: vs) "/").
    by rewrite IH.
Qed.

Lemma buildTags_join tags :
  buildTags tags
  = Str.Join ((λ k, tagValue (default "" (tags !! k))) <$> tagKeys tags) "/".
Proof.
  unfold buildTags. destruct (tagKeys tags) as [|k keys]; [done|].
  cbn [tagLoop]. rewrite tagLoop_succ, fmap_cons, Join_cons.
  unfold tagStep. cbn [Nat.eqb append]. f_equal.
  induction keys as [|k' keys IH]; [done|]. cbn. by rewrite IH.
Qed.

Lemma buildTags_root k : k ≠ "host" → buildTags {[k := "/"]} = "ROOT".
Proof.
  intros Hk. unfold buildTags. rewrite tagKeys_singleton by done.
  cbn [tagLoop]. unfold tagStep. by rewrite lookup_singleton_eq.
Qed.

(** C3, as the replacer table has it: the output of sanitization holds none
    of "/", " ", "%", ":", "\", "[", "]", "."; an underscore can remain (it
    replaces "/", ":" and "\"), and sanitizing a sanitized string again
    gives the same string exactly when it holds no underscore; the tag
    value "/" is turned into "ROOT" (not sanitized), so that a sample whose
    only tag besides "host" has the value "/" gets the tag string "ROOT". *)
Theorem sanitize_removes_and_repeats :
  (∀ s c, c ∈ ["/"; " "; "%"; ":"; "\"; "["; "]"; "."]%char →
          Str.hasChar c (sanitize s) = false) ∧
  (∀ s, sanitize (sanitize s) = sanitize s ↔
        Str.hasChar "_" (sanitize s) = false) ∧
  tagValue "/" = "ROOT" ∧
  (∀ k, k ≠ "host" → buildTags {[k := "/"]} = "ROOT").
Proof.
  split; [|split; [|split; [reflexivity|]]].
  - intros s c Hc. apply sanitize_removed. unfold removedChars.
    repeat (apply elem_of_cons in Hc as [->|Hc]);
      [ .. | by apply elem_of_nil in Hc];
      repeat first [apply list_elem_of_here | apply list_elem_of_further].
  - apply sanitize_twice.
  - apply buildTags_root.
Qed.

Lemma sanitize_removes_and_repeats_witness :
  Str.hasChar "/" (sanitize "disk/io wait") = false ∧
  sanitize (sanitize "cpu.usage") = sanitize "cpu.usage" ∧
  buildTags {["path" := "/"]} = "ROOT".
Proof.
  destruct sanitize_removes_and_repeats as (Hrm & Htwice & _ & Hroot).
  split; [|split].
  - apply Hrm. apply list_elem_of_here.
  - apply Htwice. reflexivity.
  - apply Hroot. discriminate.
Defined.

(** The claim as the specification words it fails on the string "/": its
    sanitized form is an underscore, which a second pass deletes. *)
Lemma sanitize_underscore_counterexample :
  Str.hasChar "_" (sanitize "/") = true ∧
  sanitize (sanitize "/") ≠ sanitize "/".
Proof. split; [reflexivity|discriminate]. Qed.

End Sanitize.

(** * The loops over maps *)

Section MapLoops.

(** A loop that rewrites, for each entry of [new], the entry of the same
    key in [M]. *)
Lemma fold_update_lookup {A} (g : option A → A → A)
    (M new : gmap string A) (p : string) :
  map_fold (λ k v M, <[k := g (M !! k) v]> M) M new !! p
  = match new !! p with
    | Some v => Some (g (M !! p) v)
    | None => M !! p
    end.
Proof.
  revert p. apply (map_fold_weak_ind
    (λ r m, ∀ p, r !! p = match m !! p with
                          | Some v => Some (g (M !! p) v)
                          | None => M !! p
                          end)).
  - intros p. by rewrite lookup_empty.
  - intros i x m r Hi IH p. destruct (decide (i = p)) as [->|Hne].
    + rewrite !lookup_insert_eq. f_equal. f_equal.
      by rewrite IH, Hi.
    + rewrite !lookup_insert_ne by done. apply IH.
Qed.

Lemma mergeMetrics_lookup M new p :
  mergeMetrics M new !! p
  = match new !! p with
    | Some v => Some (mergeStat (M !! p) v)
    | None => M !! p
    end.
Proof. apply fold_update_lookup. Qed.

Lemma addMetrics_lookup M new p :
  addMetrics M new !! p
  = match new !! p with
    | Some v => Some v
    | None => M !! p
    end.
Proof. apply (fold_update_lookup (λ _ v, v)). Qed.

Lemma mergeMetrics_dom M new : dom (mergeMetrics M new) = dom M ∪ dom new.
Proof.
  apply set_eq. intros p.
  rewrite elem_of_union, !elem_of_dom, mergeMetrics_lookup.
  destruct (new !! p); rewrite <- ?not_eq_None_Some; naive_solver.
Qed.

Lemma addMetrics_dom M new : dom (addMetrics M new) = dom M ∪ dom new.
Proof.
  apply set_eq. intros p.
  rewrite elem_of_union, !elem_of_dom, addMetrics_lookup.
  destruct (new !! p); rewrite <- ?not_eq_None_Some; naive_solver.
Qed.

(** The search of [equalsTags] can only succeed at the key that is the
    sample's name. *)
Lemma equalsTags_spec table search :
  equalsTags table search = true ↔
  ∃ a, table !! telegraf.Name search = Some a ∧
       buildTags (telegraf.Tags search) = Tags a.
Proof.
  unfold equalsTags.
  apply (map_fold_weak_ind
    (λ r m, r = true ↔
            ∃ a, m !! telegraf.Name search = Some a ∧
                 buildTags (telegraf.Tags search) = Tags a)).
  - rewrite lookup_empty. naive_solver.
  - intros i x m r Hi IH.
    rewrite orb_true_iff, andb_true_iff, !String.eqb_eq, IH.
    split.
    + intros [(a & Ha & Ht)|[<- Ht]].
      * exists a. split; [|done].
        rewrite lookup_insert_ne; [done|congruence].
      * exists x. by rewrite lookup_insert_eq.
    + intros (a & Ha & Ht).
      destruct (decide (i = telegraf.Name search)) as [->|Hne].
      * rewrite lookup_insert_eq in Ha. right. naive_solver.
      * rewrite lookup_insert_ne in Ha by done. left. eauto.
Qed.

(** The components are the [Component] fields of the entries of the
    grouping map, in the order the map is ranged over. *)
Lemma components_of_fold (aggregator : gmap string Aggregator) :
  map_fold (λ _ lookup temp, temp ++ [Component lookup]) [] aggregator
  = reverse (Component <$> (map_to_list aggregator).*2).
Proof.
  rewrite map_fold_foldr.
  induction (map_to_list aggregator) as [|[k a] l IH]; [done|].
  rewrite !fmap_cons, reverse_cons, <- IH. reflexivity.
Qed.

End MapLoops.

(** * BuildComponents *)

Section Build.

Variable n : NewRelic.t.
Variable host : string.

Lemma sameIdentity_refl a : sameIdentity a a.
Proof. by repeat split. Qed.

Lemma sameIdentity_trans a b c :
  sameIdentity a b → sameIdentity b c → sameIdentity a c.
Proof.
  intros (?&?&?&?&?) (?&?&?&?&?).
  repeat split; try congruence. set_solver.
Qed.

Lemma buildStep_dom aggregator metric :
  dom (buildStep n host aggregator metric)
  = {[telegraf.Name metric]} ∪ dom aggregator.
Proof.
  unfold buildStep. destruct (aggregator !! telegraf.Name metric);
    [destruct (equalsTags aggregator metric)|]; apply dom_insert_L.
Qed.

Lemma buildStep_other aggregator metric name :
  name ≠ telegraf.Name metric →
  buildStep n host aggregator metric !! name = aggregator !! name.
Proof.
  intros Hne. unfold buildStep.
  destruct (aggregator !! telegraf.Name metric);
    [destruct (equalsTags aggregator metric)|];
    by rewrite lookup_insert_ne.
Qed.

(** A sample whose name has no entry yet creates the component. *)
Lemma buildStep_new aggregator metric :
  aggregator !! telegraf.Name metric = None →
  buildStep n host aggregator metric !! telegraf.Name metric
  = Some {| Tags := buildTags (telegraf.Tags metric);
            Component := {| Name := effectiveHost host metric;
                            GUID := NewRelic.GUID n;
                            Duration := 60;
                            Metrics := serialize metric |} |}.
Proof.
  intros Hnone. unfold buildStep. rewrite Hnone.
  by rewrite lookup_insert_eq.
Qed.

(** A sample whose name has an entry changes the metrics of it only. *)
Lemma buildStep_existing aggregator metric a :
  aggregator !! telegraf.Name metric = Some a →
  ∃ a', buildStep n host aggregator metric !! telegraf.Name metric = Some a'
        ∧ sameIdentity a a'
        ∧ dom (serialize metric) ⊆ dom (Metrics (Component a')).
Proof.
  intros Ha. unfold buildStep. rewrite Ha.
  destruct (equalsTags aggregator metric);
    rewrite lookup_insert_eq; eexists; (split; [reflexivity|]);
    unfold sameIdentity; cbn;
    rewrite ?mergeMetrics_dom, ?addMetrics_dom; set_solver.
Qed.

Lemma buildStep_frame aggregator metric name a :
  aggregator !! name = Some a →
  ∃ a', buildStep n host aggregator metric !! name = Some a'
        ∧ sameIdentity a a'.
Proof.
  intros Ha. destruct (decide (name = telegraf.Name metric)) as [->|Hne].
  - destruct (buildStep_existing _ _ _ Ha) as (a' & ? & ? & _). eauto.
  - exists a. rewrite buildStep_other by done.
    split; [done|apply sameIdentity_refl].
Qed.

Lemma foldl_buildStep_frame metrics aggregator name a :
  aggregator !! name = Some a →
  ∃ a', foldl (buildStep n host) aggregator metrics !! name = Some a'
        ∧ sameIdentity a a'.
Proof.
  revert aggregator a.
  induction metrics as [|metric metrics IH]; intros aggregator a Ha.
  - exists a. split; [done|apply sameIdentity_refl].
  - destruct (buildStep_frame aggregator metric name a Ha) as (b & Hb & Hab).
    destruct (IH _ _ Hb) as (c & Hc & Hbc).
    exists c. split; [done|by eapply sameIdentity_trans].
Qed.

Lemma foldl_buildStep_dom metrics aggregator :
  dom (foldl (buildStep n host) aggregator metrics)
  = dom aggregator ∪ list_to_set (telegraf.Name <$> metrics).
Proof.
  revert aggregator.
  induction metrics as [|metric metrics IH]; intros aggregator; cbn.
  - set_solver.
  - rewrite IH, buildStep_dom. set_solver.
Qed.

(** Each sample's paths are in the entry of its name at the end. *)
Lemma foldl_buildStep_lands metrics aggregator metric :
  metric ∈ metrics →
  ∃ a, foldl (buildStep n host) aggregator metrics !! telegraf.Name metric
       = Some a
       ∧ dom (serialize metric) ⊆ dom (Metrics (Component a)).
Proof.
  revert aggregator.
  induction metrics as [|m metrics IH]; intros aggregator Hin.
  - by apply elem_of_nil in Hin.
  - apply elem_of_cons in Hin as [->|Hin]; [|by apply IH].
    cbn [foldl].
    assert (∃ b, buildStep n host aggregator m !! telegraf.Name m = Some b
                 ∧ dom (serialize m) ⊆ dom (Metrics (Component b)))
      as (b & Hb & Hsub).
    { destruct (aggregator !! telegraf.Name m) as [a|] eqn:Ha.
      - destruct (buildStep_existing _ _ _ Ha) as (b & ? & _ & ?). eauto.
      - rewrite (buildStep_new _ _ Ha). eexists. split; [done|]. done. }
    destruct (foldl_buildStep_frame metrics _ _ _ Hb) as (c & Hc & Hbc).
    exists c. split; [done|]. destruct Hbc as (_&_&_&_&?). set_solver.
Qed.

End Build.

Lemma BuildComponents_perm n request metrics :
  BuildComponents n request metrics
  ≡ₚ Component <$> (map_to_list
                      (aggregate n (Host (Agent request)) metrics)).*2.
Proof.
  unfold BuildComponents. rewrite components_of_fold.
  apply reverse_Permutation.
Qed.

Lemma aggregate_dom n host metrics :
  dom (aggregate n host metrics) = list_to_set (telegraf.Name <$> metrics).
Proof. unfold aggregate. rewrite foldl_buildStep_dom. set_solver. Qed.

Lemma BuildComponents_length n request metrics :
  length (BuildComponents n request metrics)
  = size (list_to_set (telegraf.Name <$> metrics) : gset string).
Proof.
  rewrite BuildComponents_perm, !length_fmap, length_map_to_list.
  by rewrite <- (aggregate_dom n (Host (Agent request))), size_dom.
Qed.

Lemma BuildComponents_nonempty n request metrics :
  metrics ≠ [] → BuildComponents n request metrics ≠ [].
Proof.
  intros Hne Hnil. apply (f_equal length) in Hnil.
  rewrite BuildComponents_length in Hnil. cbn in Hnil.
  apply size_empty_inv in Hnil.
  destruct metrics as [|m metrics]; [done|]. set_solver.
Qed.

(** C1, as the code groups: the grouping map is keyed by the sample's name
    alone, so one aggregation pass yields one component per distinct name of
    the batch, the components are the entries of that map, and the paths of
    every sample are in the component of its name (whatever its tags). *)
Theorem components_one_per_name n request metrics :
  let aggregator := aggregate n (Host (Agent request)) metrics in
  dom aggregator = list_to_set (telegraf.Name <$> metrics) ∧
  BuildComponents n request metrics
    ≡ₚ Component <$> (map_to_list aggregator).*2 ∧
  length (BuildComponents n request metrics)
    = size (list_to_set (telegraf.Name <$> metrics) : gset string) ∧
  (∀ m, m ∈ metrics →
        ∃ a, aggregator !! telegraf.Name m = Some a ∧
             dom (serialize m) ⊆ dom (Metrics (Component a))).
Proof.
  intros aggregator.
  split; [apply aggregate_dom|]. split; [apply BuildComponents_perm|].
  split; [apply BuildComponents_length|].
  intros m Hm. by apply foldl_buildStep_lands.
Qed.

(** The claim as the specification words it fails on the batch [m1; m4]:
    two groups (the tag strings differ) and one component, which holds the
    paths of both samples. *)
Lemma components_per_group_counterexample :
  size (list_to_set (groupKey <$> [Examples.m1; Examples.m4])
        : gset (string * string)) = 2%nat ∧
  length (BuildComponents Examples.plugin Examples.request
            [Examples.m1; Examples.m4]) = 1%nat ∧
  (map_to_list ∘ Metrics <$>
     BuildComponents Examples.plugin Examples.request
       [Examples.m1; Examples.m4])
  = [[("Component/m1/tagvalue1/value1", newStat 3);
      ("Component/m1/tagvalue1/value2", newStat 4);
      ("Component/m1/tagvalue2/value1", newStat 1);
      ("Component/m1/tagvalue2/value2", newStat 2)]].
Proof. vm_compute. repeat split. Qed.

(** C10: the entry a sample creates for its name carries the host chosen
    from that sample, the plugin's GUID and the duration 60, and whatever
    samples follow in the batch (of the same name or not, with another
    "host" tag or not) the entry of that name keeps its Name, GUID and
    Duration: later samples only add to its metrics. *)
Theorem component_identity_kept n host pre metric post :
  telegraf.Name metric ∉ telegraf.Name <$> pre →
  ∃ a a',
    aggregate n host (pre ++ [metric]) !! telegraf.Name metric = Some a ∧
    aggregate n host (pre ++ metric :: post) !! telegraf.Name metric
      = Some a' ∧
    Name (Component a) = effectiveHost host metric ∧
    GUID (Component a) = NewRelic.GUID n ∧
    Duration (Component a) = 60 ∧
    Name (Component a') = Name (Component a) ∧
    GUID (Component a') = GUID (Component a) ∧
    Duration (Component a') = Duration (Component a) ∧
    dom (Metrics (Component a)) ⊆ dom (Metrics (Component a')).
Proof.
  intros Hfresh. unfold aggregate.
  assert (Hnone : foldl (buildStep n host) ∅ pre !! telegraf.Name metric
                  = None).
  { apply not_elem_of_dom. rewrite foldl_buildStep_dom.
    rewrite dom_empty_L, elem_of_union, elem_of_list_to_set.
    intros [H|H]; [by apply elem_of_empty in H|done]. }
  rewrite (foldl_app _ pre [metric]), (foldl_app _ pre (metric :: post)).
  cbn [foldl]. pose proof (buildStep_new n host _ _ Hnone) as Hnew.
  destruct (foldl_buildStep_frame n host post _ _ _ Hnew)
    as (a' & Ha' & (_ & HN & HG & HD & HM)).
  eexists _, a'. split; [exact Hnew|]. split; [exact Ha'|].
  cbn in *. by repeat split.
Qed.

Lemma component_identity_kept_witness :
  ∃ a a',
    aggregate Examples.plugin "testhostname" ([] ++ [Examples.s1])
      !! "m1" = Some a ∧
    aggregate Examples.plugin "testhostname"
      ([] ++ Examples.s1 :: [Examples.s3]) !! "m1" = Some a' ∧
    Name (Component a) = "testhostname" ∧
    GUID (Component a) = "test.sonica.telegraf" ∧
    Duration (Component a) = 60 ∧
    Name (Component a') = Name (Component a) ∧
    GUID (Component a') = GUID (Component a) ∧
    Duration (Component a') = Duration (Component a) ∧
    dom (Metrics (Component a)) ⊆ dom (Metrics (Component a')).
Proof.
  apply (component_identity_kept Examples.plugin "testhostname"
           [] Examples.s1 [Examples.s3]).
  cbn. apply not_elem_of_nil.
Defined.

(** C2 at a batch where the code overwrites: three samples of the name m1,
    the first with the tag value tagvalue1, the next two with tagvalue2 and
    the values 1 and 5 of value1. The path of the second group ends with
    the statistics of its last sample alone (count 1, total 5, min 5). *)
Theorem later_group_overwritten :
  (map_to_list ∘ Metrics <$>
     BuildComponents Examples.plugin Examples.request
       [Examples.s1; Examples.b1; Examples.b2])
  = [[("Component/m1/tagvalue1/value1",
       {| Count := 1; Total := 3; Min := 3; Max := 3; SumOfSquares := 9 |});
      ("Component/m1/tagvalue2/value1",
       {| Count := 1; Total := 5; Min := 5; Max := 5; SumOfSquares := 25 |})]].
Proof. vm_compute. reflexivity. Qed.

(** C4: the two samples named m1 with the tag tag1 = tagvalue1 and the
    values 3 and 2 of value1 give one component with the single path
    Component/m1/tagvalue1/value1, of count 2, total 5, min 2, max 3 and
    sum of squares 13. *)
Theorem two_samples_merged :
  ((λ c, (Name c, GUID c, Duration c, map_to_list (Metrics c))) <$>
     BuildComponents Examples.plugin Examples.request
       [Examples.s1; Examples.s2])
  = [("testhostname", "test.sonica.telegraf", 60,
      [("Component/m1/tagvalue1/value1",
        {| Count := 2; Total := 5; Min := 2; Max := 3;
           SumOfSquares := 13 |})])].
Proof. vm_compute. reflexivity. Qed.

(** * The conversion of integers to float64 *)

Section Float64OfInt.

Lemma digits2_pos_lower m :
  2 ^ (Z.pos (digits2_pos m) - 1) ≤ Z.pos m.
Proof.
  induction m as [m IH|m IH|]; cbn [digits2_pos]; [| |done].
  - rewrite Pos2Z.inj_succ.
    replace (Z.succ (Z.pos (digits2_pos m)) - 1)
      with (Z.succ (Z.pos (digits2_pos m) - 1)) by lia.
    rewrite Z.pow_succ_r by lia. lia.
  - rewrite Pos2Z.inj_succ.
    replace (Z.succ (Z.pos (digits2_pos m)) - 1)
      with (Z.succ (Z.pos (digits2_pos m) - 1)) by lia.
    rewrite Z.pow_succ_r by lia. lia.
Qed.

Lemma digits2_pos_small m :
  Z.pos m < 2 ^ 53 → Z.pos (digits2_pos m) ≤ 53.
Proof.
  intros Hm. pose proof (digits2_pos_lower m) as Hl.
  destruct (Z.le_gt_cases (Z.pos (digits2_pos m)) 53) as [|Hgt]; [done|].
  assert (2 ^ 53 ≤ 2 ^ (Z.pos (digits2_pos m) - 1))
    by (apply Z.pow_le_mono_r; lia).
  lia.
Qed.

Lemma digits2_pos_iter m d :
  digits2_pos (Pos.iter xO m d) = (digits2_pos m + d)%positive.
Proof.
  induction d as [|d IH] using Pos.peano_ind.
  - cbn. lia.
  - rewrite Pos.iter_succ. cbn [digits2_pos]. rewrite IH. lia.
Qed.

Lemma iter_xO_value m d : Z.pos (Pos.iter xO m d) = Z.pos m * 2 ^ Z.pos d.
Proof.
  change (Pos.iter xO m d) with (shift_pos d m).
  rewrite shift_pos_correct. change (Z.pow_pos 2 d) with (2 ^ Z.pos d). lia.
Qed.

(** A mantissa that is aligned (its digits end at [fexp]) goes through
    [binary_round_aux] unchanged. *)
Lemma binary_round_aux_aligned sx mz ez :
  fexp prec emax (Z.pos (digits2_pos mz) + ez) = ez →
  ez ≤ 0 →
  binary_round_aux prec emax sx (Z.pos mz) ez loc_Exact
  = S754_finite sx mz ez.
Proof.
  intros Hf He. unfold binary_round_aux, shr_fexp.
  cbn [Zdigits2 shr_record_of_loc round_nearest_even].
  rewrite Hf, Z.sub_diag. cbn [shr shr_m loc_of_shr_record round_nearest_even].
  cbn [Zdigits2 shr_record_of_loc]. rewrite Hf, Z.sub_diag.
  cbn [shr shr_m].
  destruct (Z.leb_spec ez (emax - prec)) as [|Hgt]; [done|].
  unfold emax, prec in Hgt. lia.
Qed.

Lemma binary_round_small sx m :
  Z.pos m < 2 ^ 53 →
  ∃ m' e', binary_round prec emax sx m 0 = S754_finite sx m' e' ∧
           e' ≤ 0 ∧ Z.pos m' = Z.pos m * 2 ^ (- e').
Proof.
  intros Hm. pose proof (digits2_pos_small m Hm) as Hd.
  assert (Hfexp : ∀ e, -52 ≤ e - 53 → fexp prec emax e = e - 53).
  { intros e He. unfold fexp, SpecFloat.emin, emax, prec. lia. }
  unfold binary_round, shl_align.
  rewrite Z.add_0_r, Hfexp, Z.sub_0_r by lia.
  destruct (Z.pos (digits2_pos m) - 53) as [|d|d] eqn:Hdiff; [|lia|].
  - exists m, 0. rewrite binary_round_aux_aligned; [|rewrite Hfexp; lia|lia].
    split; [done|]. split; [done|]. cbn. lia.
  - exists (Pos.iter xO m d), (Z.neg d).
    rewrite binary_round_aux_aligned.
    + split; [done|]. split; [lia|]. by rewrite iter_xO_value.
    + rewrite digits2_pos_iter, Hfexp; lia.
    + lia.
Qed.

Lemma of_uint63_small z :
  0 < z < 2 ^ 53 →
  ∃ m e, Prim2SF (PrimFloat.of_uint63 (Uint63.of_Z z))
         = S754_finite false m e ∧
         e ≤ 0 ∧ Z.pos m = z * 2 ^ (- e).
Proof.
  intros Hz. rewrite of_uint63_spec, Uint63.of_Z_spec.
  rewrite Z.mod_small
    by (change wB with (2 ^ 63); split; [lia|];
        apply Z.lt_trans with (2 ^ 53); [lia|done]).
  destruct z as [|p|p]; [lia| |lia].
  cbn [binary_normalize]. apply binary_round_small. lia.
Qed.

Lemma SF2Z_finite s m e z :
  e ≤ 0 → Z.pos m = z * 2 ^ (- e) →
  SF2Z (S754_finite s m e) = Some (cond_Zopp s z).
Proof.
  intros He Hm. unfold SF2Z.
  destruct (Z.leb_spec 0 e) as [H0|Hneg].
  - assert (e = 0) as -> by lia. cbn in Hm. f_equal. f_equal. lia.
  - assert (0 < 2 ^ (- e)) by (apply Z.pow_pos_nonneg; lia).
    rewrite Hm, Z.mod_mul, Z.div_mul by lia. done.
Qed.

(** An integer of magnitude below 2^53 is converted exactly. *)
Lemma float64_of_int_exact z :
  - 2 ^ 53 < z < 2 ^ 53 → float_to_Z (float64_of_int z) = Some z.
Proof.
  intros Hz. unfold float_to_Z, float64_of_int.
  destruct (Z.eqb_spec z (- 2 ^ 63)) as [->|_]; [lia|].
  destruct (Z.ltb_spec z 0) as [Hneg|Hpos].
  - destruct (of_uint63_small (- z)) as (m & e & Hsf & He & Hm); [lia|].
    rewrite FloatAxioms.opp_spec, Hsf. cbn [SFopp].
    rewrite (SF2Z_finite _ _ _ (- z)) by done. cbn. f_equal. lia.
  - destruct (Z.eq_dec z 0) as [->|Hnz]; [by vm_compute|].
    destruct (of_uint63_small z) as (m & e & Hsf & He & Hm); [lia|].
    rewrite Hsf. by rewrite (SF2Z_finite _ _ _ z).
Qed.

End Float64OfInt.

(** * serialize *)

Section Serialize.

Variable m : telegraf.Metric.

Let path : string → string :=
  fieldPath (telegraf.Name m) (buildTags (telegraf.Tags m)).

(** Every entry of the result is the statistic of a field the type switch
    accepts. *)
Lemma serialize_sound p st :
  serialize m !! p = Some st →
  ∃ k v value, telegraf.Fields m !! k = Some v ∧
               fieldValue v = Some value ∧
               p = path k ∧ st = newStat value.
Proof.
  unfold serialize. revert p st.
  apply (map_fold_weak_ind
    (λ r fields, ∀ p st, r !! p = Some st →
       ∃ k v value, fields !! k = Some v ∧ fieldValue v = Some value ∧
                    p = path k ∧ st = newStat value)).
  - intros p st. by rewrite lookup_empty.
  - intros i x fields r Hi IH p st. unfold serializeStep.
    destruct (fieldValue x) as [value|] eqn:Hx.
    + destruct (decide (path i = p)) as [<-|Hne].
      * fold (path i). rewrite lookup_insert_eq. intros [= <-].
        exists i, x, value. by rewrite lookup_insert_eq.
      * fold (path i). rewrite lookup_insert_ne by done. intros Hr.
        destruct (IH _ _ Hr) as (k & v & w & Hk & ? & ? & ?).
        exists k, v, w. rewrite lookup_insert_ne by congruence. done.
    + intros Hr. destruct (IH _ _ Hr) as (k & v & w & Hk & ? & ? & ?).
      exists k, v, w. rewrite lookup_insert_ne by congruence. done.
Qed.

(** A field the switch accepts has an entry at its path, and the entry is
    the statistic of its value when no other accepted field of the sample
    has the same path. *)
Lemma serialize_complete k v value :
  telegraf.Fields m !! k = Some v →
  fieldValue v = Some value →
  is_Some (serialize m !! path k) ∧
  ((∀ k' v', telegraf.Fields m !! k' = Some v' →
             is_Some (fieldValue v') → path k' = path k → k' = k) →
   serialize m !! path k = Some (newStat value)).
Proof.
  unfold serialize. revert k v value.
  apply (map_fold_weak_ind
    (λ r fields, ∀ k v value,
       fields !! k = Some v → fieldValue v = Some value →
       is_Some (r !! path k) ∧
       ((∀ k' v', fields !! k' = Some v' →
                  is_Some (fieldValue v') → path k' = path k → k' = k) →
        r !! path k = Some (newStat value)))).
  - intros k v value. by rewrite lookup_empty.
  - intros i x fields r Hi IH k v value Hk Hv. unfold serializeStep.
    fold (path i). destruct (decide (i = k)) as [->|Hne].
    + rewrite lookup_insert_eq in Hk. injection Hk as ->. rewrite Hv.
      rewrite lookup_insert_eq. split; [by eexists|done].
    + rewrite lookup_insert_ne in Hk by done.
      destruct (IH _ _ _ Hk Hv) as [Hsome Huniq].
      destruct (fieldValue x) as [w|] eqn:Hx.
      * destruct (decide (path i = path k)) as [Heq|Hp].
        -- rewrite Heq, lookup_insert_eq. split; [by eexists|].
           intros Hu. exfalso. apply Hne. apply (Hu i x).
           ++ by rewrite lookup_insert_eq.
           ++ by rewrite Hx.
           ++ done.
        -- rewrite lookup_insert_ne by done. split; [done|].
           intros Hu. apply Huniq. intros k' v' Hk' ? ?.
           apply (Hu k' v'); [|done..].
           rewrite lookup_insert_ne; [done|congruence].
      * split; [done|]. intros Hu. apply Huniq. intros k' v' Hk' ? ?.
        apply (Hu k' v'); [|done..].
        rewrite lookup_insert_ne; [done|congruence].
Qed.

(** C5, as the type switch has it: serialize turns a boolean into 1 or 0,
    takes a float64 as it is, and converts a value of the integer types
    int, int32 and int64 to float64, exactly when its magnitude is below
    2^53; a value of any other type has no case: the other integer types
    (int8, int16, uint, uint8, uint16, uint32, uint64), float32, strings
    and the rest are skipped. Every entry of the returned map is the
    statistic of a field the switch has a value for; such a field always
    has an entry at its path, holding its own statistic when no other
    such field shares the path; and a path that only skipped fields would
    get has no entry. The function returns a map for every sample: there
    is no error result. *)
Theorem serialize_field_types :
  (∀ t, fieldValue (VBool t) = Some (if t then 1 else 0)%float) ∧
  (∀ t, fieldValue (VFloat64 t) = Some t) ∧
  (∀ t, fieldValue (VInt t) = Some (float64_of_int t) ∧
        fieldValue (VInt32 t) = Some (float64_of_int t) ∧
        fieldValue (VInt64 t) = Some (float64_of_int t)) ∧
  (∀ t, - 2 ^ 53 < t < 2 ^ 53 →
        float_to_Z (float64_of_int t) = Some t) ∧
  (∀ t, fieldValue (VInt8 t) = None ∧ fieldValue (VInt16 t) = None ∧
        fieldValue (VUint t) = None ∧ fieldValue (VUint8 t) = None ∧
        fieldValue (VUint16 t) = None ∧ fieldValue (VUint32 t) = None ∧
        fieldValue (VUint64 t) = None) ∧
  (∀ t, fieldValue (VFloat32 t) = None) ∧
  (∀ t, fieldValue (VString t) = None) ∧
  fieldValue VOther = None ∧
  (∀ p st, serialize m !! p = Some st →
     ∃ k v value, telegraf.Fields m !! k = Some v ∧
                  fieldValue v = Some value ∧
                  p = path k ∧ st = newStat value) ∧
  (∀ k v value,
     telegraf.Fields m !! k = Some v → fieldValue v = Some value →
     is_Some (serialize m !! path k) ∧
     ((∀ k' v', telegraf.Fields m !! k' = Some v' →
                is_Some (fieldValue v') → path k' = path k → k' = k) →
      serialize m !! path k = Some (newStat value))) ∧
  (∀ p, (∀ k v, telegraf.Fields m !! k = Some v → path k = p →
                fieldValue v = None) →
        serialize m !! p = None).
Proof.
  split; [done|]. split; [done|]. split; [done|].
  split; [apply float64_of_int_exact|].
  split; [done|]. split; [done|]. split; [done|]. split; [done|].
  split; [apply serialize_sound|]. split; [apply serialize_complete|].
  intros p Hskip. destruct (serialize m !! p) as [st|] eqn:Hp; [|done].
  destruct (serialize_sound _ _ Hp) as (k & v & value & Hk & Hv & -> & _).
  rewrite (Hskip k v Hk eq_refl) in Hv. done.
Qed.

End Serialize.

Lemma serialize_field_types_witness :
  float_to_Z (float64_of_int (-7)) = Some (-7) ∧
  fieldValue (VInt64 (-7)) = Some (float64_of_int (-7)).
Proof.
  destruct (serialize_field_types Examples.z1)
    as (_ & _ & Hint & Hexact & _).
  split; [apply Hexact; lia|apply (Hint (-7))].
Defined.

(** The claim as the specification words it fails on the sample [u1],
    whose fields are a uint64 and an int8: values of integer types, and
    serialize skips both. *)
Lemma integer_types_counterexample :
  fieldValue (VUint64 7) = None ∧ fieldValue (VInt8 3) = None ∧
  map_to_list (serialize Examples.u1) = [].
Proof. repeat split. Qed.

(** The sample [z1]: the string field leaves no entry, the boolean false
    and the float zero count as 0, the integer 4 as 4. *)
Example serialize_z1 :
  map_to_list (serialize Examples.z1)
  = [("Component/m1/tagvalue1/up", newStat 0);
     ("Component/m1/tagvalue1/idle", newStat 0);
     ("Component/m1/tagvalue1/n", newStat 4)].
Proof. vm_compute. reflexivity. Qed.

(** * The group of the first sample of a name

    The samples whose tag string is the one stored with the component go
    through the merging branch; for them the count of a path is the number
    of samples that have the path. *)

Section FirstGroup.

Variable n : NewRelic.t.
Variable host : string.

Lemma wrapInt_small z : - 2 ^ 63 ≤ z < 2 ^ 63 → wrapInt z = z.
Proof. intros H. unfold wrapInt. rewrite Z.mod_small; lia. Qed.

Lemma buildStep_merge aggregator metric a :
  aggregator !! telegraf.Name metric = Some a →
  buildTags (telegraf.Tags metric) = Tags a →
  buildStep n host aggregator metric
  = <[telegraf.Name metric :=
        withMetrics a (mergeMetrics (Metrics (Component a))
                         (serialize metric))]> aggregator.
Proof.
  intros Ha Ht. unfold buildStep. rewrite Ha.
  assert (equalsTags aggregator metric = true) as ->; [|done].
  apply equalsTags_spec. eauto.
Qed.

Lemma buildStep_overwrite aggregator metric a :
  aggregator !! telegraf.Name metric = Some a →
  buildTags (telegraf.Tags metric) ≠ Tags a →
  buildStep n host aggregator metric
  = <[telegraf.Name metric :=
        withMetrics a (addMetrics (Metrics (Component a))
                         (serialize metric))]> aggregator.
Proof.
  intros Ha Ht. unfold buildStep. rewrite Ha.
  destruct (equalsTags aggregator metric) eqn:E; [|done].
  apply equalsTags_spec in E as (b & Hb & ?). congruence.
Qed.

Lemma serialize_count m p st : serialize m !! p = Some st → Count st = 1.
Proof.
  intros H. by destruct (serialize_sound m p st H) as (?&?&?&_&_&_&->).
Qed.

Lemma contributors_snoc p metrics s :
  contributors p (metrics ++ [s])
  = (contributors p metrics
     + if serialize s !! p is Some _ then 1 else 0)%nat.
Proof.
  unfold contributors. rewrite filter_app, length_app. f_equal.
  rewrite filter_cons, filter_nil.
  destruct (serialize s !! p) eqn:E.
  - rewrite decide_True; [done|by eexists].
  - rewrite decide_False; [done|]. by intros [? ?].
Qed.

Lemma contributors_le p metrics :
  (contributors p metrics ≤ length metrics)%nat.
Proof. apply length_filter. Qed.

Lemma counted_step name tags seen aggregator s :
  counted name tags seen aggregator →
  telegraf.Name s = name → buildTags (telegraf.Tags s) = tags →
  Z.of_nat (length seen) < 2 ^ 63 - 1 →
  counted name tags (seen ++ [s]) (buildStep n host aggregator s).
Proof.
  intros (a & Ha & Ht & Hc) <- <- Hlen.
  rewrite (buildStep_merge _ _ a) by done.
  eexists. split; [apply lookup_insert_eq|]. split; [done|].
  intros p. cbn. rewrite mergeMetrics_lookup, contributors_snoc.
  specialize (Hc p). pose proof (contributors_le p seen) as Hle.
  destruct (serialize s !! p) as [v|] eqn:Hv.
  - replace (contributors p seen + 1)%nat with (S (contributors p seen))
      by lia.
    cbn [fmap option_fmap option_map mergeStat Count]. f_equal.
    destruct (Metrics (Component a) !! p) as [old|]; cbn in Hc |- *.
    + destruct (contributors p seen) as [|k] eqn:Hk; [done|].
      injection Hc as ->. rewrite wrapInt_small; lia.
    + rewrite wrapInt_small by lia.
      destruct (contributors p seen); [done|done].
  - by rewrite Nat.add_0_r.
Qed.

Lemma counted_foldl name tags rest seen aggregator :
  counted name tags seen aggregator →
  Forall (λ s, telegraf.Name s = name ∧
               buildTags (telegraf.Tags s) = tags) rest →
  Z.of_nat (length seen + length rest) < 2 ^ 63 →
  counted name tags (seen ++ rest)
    (foldl (buildStep n host) aggregator rest).
Proof.
  revert seen aggregator.
  induction rest as [|s rest IH]; intros seen aggregator Hc Hall Hlen.
  - by rewrite app_nil_r.
  - apply Forall_cons in Hall as [[Hn Ht] Hall]. cbn [foldl].
    rewrite (cons_middle s seen rest), app_assoc. apply IH; [|done|].
    + apply counted_step; [done..|]. cbn in Hlen. lia.
    + rewrite length_app. cbn in *. lia.
Qed.

(** In a batch of one name and one tag string every path is counted once
    per sample that has it. *)
Lemma first_group_count first rest :
  Forall (λ s, telegraf.Name s = telegraf.Name first ∧
               buildTags (telegraf.Tags s)
               = buildTags (telegraf.Tags first)) rest →
  Z.of_nat (length (first :: rest)) < 2 ^ 63 →
  ∃ a, aggregate n host (first :: rest) !! telegraf.Name first = Some a ∧
       ∀ p, Count <$> (Metrics (Component a) !! p)
            = (if contributors p (first :: rest) is O then None
               else Some (Z.of_nat (contributors p (first :: rest)))).
Proof.
  intros Hall Hlen. unfold aggregate. cbn [foldl].
  destruct (counted_foldl (telegraf.Name first)
              (buildTags (telegraf.Tags first)) rest [first]
              (buildStep n host ∅ first)) as (a & Ha & _ & Hc);
    [|done|cbn in *; lia|by exists a].
  eexists. split; [by apply buildStep_new|]. split; [done|].
  intros p. cbn [Component Metrics]. unfold contributors.
  rewrite filter_cons, filter_nil.
  destruct (serialize first !! p) as [st|] eqn:Hp.
  - rewrite decide_True by (by eexists). cbn.
    by rewrite (serialize_count _ _ _ Hp).
  - rewrite decide_False; [done|]. by intros [? ?].
Qed.

End FirstGroup.

(** * The request on the wire *)

Section Wire.

Lemma marshalNRMetric_shape st jm :
  marshalNRMetric st = Some jm → metricShape st jm.
Proof.
  unfold marshalNRMetric, marshalOptFloat, marshalFloat, metricShape.
  destruct (PrimFloat.is_finite (Total st)); [|done].
  destruct (PrimFloat.is_zero (Min st)),
           (PrimFloat.is_zero (Max st)),
           (PrimFloat.is_zero (SumOfSquares st));
    repeat match goal with
    | |- context [PrimFloat.is_finite ?f] =>
        destruct (PrimFloat.is_finite f); [|done]
    end;
    cbn; intros [= <-]; by vm_compute.
Qed.

Lemma marshalMetrics_members M j :
  marshalMetrics M = Some j →
  ∃ members, j = JObject members ∧
    members.*1 ≡ₚ (map_to_list M).*1 ∧
    ∀ p jm, (p, jm) ∈ members →
            ∃ st, M !! p = Some st ∧ marshalNRMetric st = Some jm.
Proof.
  unfold marshalMetrics. intros Hj.
  destruct (mapM _ _) as [members|] eqn:Hm; [|done].
  injection Hj as <-. exists members. split; [done|].
  apply mapM_Some in Hm.
  assert (Hsorted : ∀ l, Forall2
            (λ (kv : string * NRMetric) (kj : string * json),
               (marshalNRMetric kv.2 ≫= λ j, Some (kv.1, j)) = Some kj)
            l members →
            members.*1 = l.*1 ∧
            ∀ p jm, (p, jm) ∈ members →
                    ∃ st, (p, st) ∈ l ∧ marshalNRMetric st = Some jm).
  { clear. intros l Hl. induction Hl as [|[k st] [k' j] l members Hx Hl IH].
    - split; [done|]. intros p jm H. by apply elem_of_nil in H.
    - cbn in Hx. destruct (marshalNRMetric st) as [j0|] eqn:Hst; [|done].
      cbn in Hx. injection Hx as <- <-. destruct IH as [IH1 IH2].
      split; [cbn; by rewrite IH1|].
      intros p jm [[= -> ->]|Hin]%elem_of_cons.
      + exists st. split; [apply list_elem_of_here|done].
      + destruct (IH2 _ _ Hin) as (st' & ? & ?).
        exists st'. split; [by apply list_elem_of_further|done]. }
  destruct (Hsorted _ Hm) as [Hkeys Hin]. split.
  - rewrite Hkeys. by rewrite merge_sort_Permutation.
  - intros p jm Hp. destruct (Hin _ _ Hp) as (st & Hst & ?).
    exists st. split; [|done].
    rewrite merge_sort_Permutation in Hst.
    by apply elem_of_map_to_list in Hst.
Qed.

Variable n : NewRelic.t.
Variable host : string.

Lemma foldl_buildStep_duration metrics aggregator :
  (∀ name a, aggregator !! name = Some a → Duration (Component a) = 60) →
  ∀ name a, foldl (buildStep n host) aggregator metrics !! name = Some a →
            Duration (Component a) = 60.
Proof.
  revert aggregator.
  induction metrics as [|metric metrics IH]; intros aggregator Hinv; [done|].
  cbn [foldl]. apply IH. intros name a.
  destruct (decide (name = telegraf.Name metric)) as [->|Hne].
  - destruct (aggregator !! telegraf.Name metric) as [b|] eqn:Hb.
    + destruct (buildStep_existing n host _ _ _ Hb)
        as (b' & -> & (_&_&_&HD&_) & _).
      intros [= <-]. rewrite HD. by eapply Hinv.
    + rewrite (buildStep_new n host _ _ Hb). by intros [= <-].
  - rewrite buildStep_other by done. apply Hinv.
Qed.

End Wire.

Lemma BuildComponents_duration n request metrics c :
  c ∈ BuildComponents n request metrics → Duration c = 60.
Proof.
  rewrite BuildComponents_perm.
  intros (a & -> & (kv & -> & Hkv)%list_elem_of_fmap)%list_elem_of_fmap.
  destruct kv as [k a]. apply elem_of_map_to_list in Hkv.
  eapply (foldl_buildStep_duration n _ metrics ∅); [|exact Hkv].
  intros name b. by rewrite lookup_empty.
Qed.

Lemma Forall2_impl_elem {A B} (P Q : A → B → Prop) l k :
  Forall2 P l k → (∀ x y, x ∈ l → P x y → Q x y) → Forall2 Q l k.
Proof.
  induction 1 as [|x y l k Hxy Hlk IH]; intros Himp; constructor.
  - apply Himp; [apply list_elem_of_here|done].
  - apply IH. intros x' y' Hin. apply Himp. by apply list_elem_of_further.
Qed.

Lemma marshalNRComponent_shape c jc :
  Duration c = 60 →
  marshalNRComponent c = Some jc →
  member "duration" jc = Some (JString "60") ∧
  ∃ members, member "metrics" jc = Some (JObject members) ∧
    members.*1 ≡ₚ (map_to_list (Metrics c)).*1 ∧
    ∀ p jm, (p, jm) ∈ members →
            ∃ st, Metrics c !! p = Some st ∧ metricShape st jm.
Proof.
  intros HD. unfold marshalNRComponent. rewrite HD.
  destruct (marshalMetrics (Metrics c)) as [jmetrics|] eqn:Hm; [|done].
  cbn. intros [= <-].
  destruct (marshalMetrics_members _ _ Hm) as (members & -> & Hkeys & Hin).
  split; [by vm_compute|]. exists members. split; [by vm_compute|].
  split; [done|]. intros p jm Hp.
  destruct (Hin _ _ Hp) as (st & ? & ?). exists st.
  split; [done|by apply marshalNRMetric_shape].
Qed.

(** C6, as the field tags have it: in the JSON of the request Write sends
    for a batch that is not empty, every component has its duration as the
    string "60", and its metrics object has one member per path of the
    component, each an object that holds count and total, and holds min, max
    and sum_of_squares exactly when the value is not zero (the three fields
    are tagged omitempty). *)
Theorem request_wire_format n request metrics j :
  metrics ≠ [] →
  marshalNRRequest {| Agent := Agent request;
                      Components := BuildComponents n request metrics |}
    = Some j →
  ∃ l, member "components" j = Some (JArray l) ∧
    Forall2
      (λ c jc,
         member "duration" jc = Some (JString "60") ∧
         ∃ members, member "metrics" jc = Some (JObject members) ∧
           members.*1 ≡ₚ (map_to_list (Metrics c)).*1 ∧
           ∀ p jm, (p, jm) ∈ members →
                   ∃ st, Metrics c !! p = Some st ∧ metricShape st jm)
      (BuildComponents n request metrics) l.
Proof.
  intros Hne. unfold marshalNRRequest. cbn [Components Agent].
  pose proof (BuildComponents_nonempty n request metrics Hne) as Hcs.
  pose proof (BuildComponents_duration n request metrics) as Hdur.
  destruct (BuildComponents n request metrics) as [|c cs]; [done|].
  destruct (mapM marshalNRComponent (c :: cs)) as [l|] eqn:Hl; [|done].
  cbn. intros [= <-]. exists l. split; [by vm_compute|].
  apply mapM_Some in Hl. eapply Forall2_impl_elem; [exact Hl|].
  intros x y Hx Hxy. apply marshalNRComponent_shape; [by apply Hdur|done].
Qed.

Lemma request_wire_format_witness :
  ∃ l,
    member "components"
      (JObject
         [("agent", marshalNRAgent (Agent Examples.request));
          ("components",
           JArray
             [JObject
                [("name", JString "testhostname");
                 ("guid", JString "test.sonica.telegraf");
                 ("duration", JString "60");
                 ("metrics",
                  JObject
                    [("Component/m1/tagvalue1/value1",
                      JObject
                        [("count", JInt 2); ("total", JFloat 5);
                         ("min", JFloat 2); ("max", JFloat 3);
                         ("sum_of_squares", JFloat 13)])])]])])
    = Some (JArray l) ∧
    Forall2
      (λ c jc,
         member "duration" jc = Some (JString "60") ∧
         ∃ members, member "metrics" jc = Some (JObject members) ∧
           members.*1 ≡ₚ (map_to_list (Metrics c)).*1 ∧
           ∀ p jm, (p, jm) ∈ members →
                   ∃ st, Metrics c !! p = Some st ∧ metricShape st jm)
      (BuildComponents Examples.plugin Examples.request
         [Examples.s1; Examples.s2]) l.
Proof.
  apply (request_wire_format Examples.plugin Examples.request
           [Examples.s1; Examples.s2]).
  - discriminate.
  - vm_compute. reflexivity.
Defined.

(** The claim as the specification words it fails on the sample [z1]: the
    metric objects of its zero-valued fields hold count and total only. *)
Lemma metric_keys_counterexample :
  marshalNRRequest
    {| Agent := Agent Examples.request;
       Components := BuildComponents Examples.plugin Examples.request
                       [Examples.z1] |}
  = Some
      (JObject
         [("agent",
           JObject [("host", JString "testhostname");
                    ("version", JString "1.0.0"); ("pid", JInt 42)]);
          ("components",
           JArray
             [JObject
                [("name", JString "testhostname");
                 ("guid", JString "test.sonica.telegraf");
                 ("duration", JString "60");
                 ("metrics",
                  JObject
                    [("Component/m1/tagvalue1/idle",
                      JObject [("count", JInt 1); ("total", JFloat 0)]);
                     ("Component/m1/tagvalue1/n",
                      JObject
                        [("count", JInt 1); ("total", JFloat 4);
                         ("min", JFloat 4); ("max", JFloat 4);
                         ("sum_of_squares", JFloat 16)]);
                     ("Component/m1/tagvalue1/up",
                      JObject [("count", JInt 1); ("total", JFloat 0)])])]])])
  ∧ hasMember "min" (JObject [("count", JInt 1); ("total", JFloat 0)]) = false.
Proof. split; vm_compute; reflexivity. Qed.

(** * The tests of newrelic_test.go, run on the model *)

(** [TestRequestSerialize] *)
Example test_request_serialize :
  marshalNRRequest
    {| Agent := {| Host := "testhostname"; Version := "1.0.0"; PID := 42 |};
       Components :=
         [{| Name := "testhostname"; GUID := "test.sonica.telegraf";
             Duration := 60;
             Metrics := {[ "Component/test1/value1/value" := newStat 1 ]} |}]
    |}
  = Some
      (JObject
         [("agent",
           JObject [("host", JString "testhostname");
                    ("version", JString "1.0.0"); ("pid", JInt 42)]);
          ("components",
           JArray
             [JObject
                [("name", JString "testhostname");
                 ("guid", JString "test.sonica.telegraf");
                 ("duration", JString "60");
                 ("metrics",
                  JObject
                    [("Component/test1/value1/value",
                      JObject
                        [("count", JInt 1); ("total", JFloat 1);
                         ("min", JFloat 1); ("max", JFloat 1);
                         ("sum_of_squares", JFloat 1)])])]])]).
Proof. vm_compute. reflexivity. Qed.

(** [TestMultiplyWrite]: the five samples give the component of m1 with six
    paths and the component of m2 with two. *)
Example test_multiply_write :
  ((λ c, (Name c, GUID c, pretty (Duration c), map_to_list (Metrics c))) <$>
     BuildComponents Examples.plugin Examples.request
       [Examples.m1; Examples.m2; Examples.m3; Examples.m4; Examples.m5])
  ≡ₚ [("testhostname", "test.sonica.telegraf", "60",
       [("Component/m1/tagvalue1/asdf1",
         {| Count := 1; Total := 3; Min := 3; Max := 3; SumOfSquares := 9 |});
        ("Component/m1/tagvalue1/asdf2",
         {| Count := 1; Total := 4; Min := 4; Max := 4; SumOfSquares := 16 |});
        ("Component/m1/tagvalue1/value1",
         {| Count := 2; Total := 5; Min := 2; Max := 3; SumOfSquares := 13 |});
        ("Component/m1/tagvalue1/value2",
         {| Count := 2; Total := 13; Min := 4; Max := 9; SumOfSquares := 97 |});
        ("Component/m1/tagvalue2/value1",
         {| Count := 1; Total := 1; Min := 1; Max := 1; SumOfSquares := 1 |});
        ("Component/m1/tagvalue2/value2",
         {| Count := 1; Total := 2; Min := 2; Max := 2; SumOfSquares := 4 |})]);
      ("testhostname", "test.sonica.telegraf", "60",
       [("Component/m2/tagvalue2/v1",
         {| Count := 1; Total := 6; Min := 6; Max := 6; SumOfSquares := 36 |});
        ("Component/m2/tagvalue2/v2",
         {| Count := 1; Total := 8; Min := 8; Max := 8; SumOfSquares := 64 |})])].
Proof. vm_compute. apply perm_swap. Qed.

(** [float64(t)]: small integers are exact, and 2^53 + 1 rounds to even. *)
Example float64_of_int_values :
  float64_of_int 3 = 3%float ∧
  float64_of_int (-7) = (-7)%float ∧
  float64_of_int (2 ^ 53 + 1) = 9007199254740992%float ∧
  float64_of_int (- 2 ^ 63) = (- 9223372036854775808)%float.
Proof. repeat split. Qed.

(** [Write] on a batch that is not empty sends the request with the new
    components, and keeps it in the shared [request]. *)
Lemma Write_sends NewRequest_err Do Unmarshal n request metrics :
  metrics ≠ [] →
  Write NewRequest_err Do Unmarshal n request metrics
  = ({| Agent := Agent request;
        Components := BuildComponents n request metrics |},
     sendData NewRequest_err Do Unmarshal n
       {| Agent := Agent request;
          Components := BuildComponents n request metrics |}).
Proof. by destruct metrics. Qed.

(** [Write] on the empty batch does nothing. *)
Lemma Write_empty NewRequest_err Do Unmarshal n request :
  Write NewRequest_err Do Unmarshal n request [] = (request, None).
Proof. reflexivity. Qed.

(** * sendData *)

Section Send.

Variable NewRequest_err : string → option string.
Variable Do : HttpRequest → string + HttpResponse.
Variable Unmarshal : string → string + NRResponse.
Variable n : NewRelic.t.
Variable request : NRRequest.
Variable reqbody : json.
Variable resp : HttpResponse.

Hypothesis Hmarshal : marshalNRRequest request = Some reqbody.
Hypothesis Hurl : NewRequest_err (NewRelic.URL n) = None.
Hypothesis Hdo : Do (buildRequest n reqbody) = inr resp.

(** Once the response is there, the result is decided by its status code
    and, when that is accepted, by its body. *)
Lemma sendData_response :
  sendData NewRequest_err Do Unmarshal n request
  = match statusError (StatusCode resp) with
    | Some e => Some e
    | None => checkBody Unmarshal (Body resp)
    end.
Proof. unfold sendData. by rewrite Hmarshal, Hurl, Hdo. Qed.

End Send.

Lemma statusError_accepted code :
  200 ≤ code ≤ 209 → statusError code = None.
Proof.
  intros H. unfold statusError.
  destruct (Z.ltb_spec code 200); [lia|].
  destruct (code >? 209) eqn:E; [|done]. apply Z.gtb_lt in E. lia.
Qed.

Lemma statusError_rejected code :
  ¬ (200 ≤ code ≤ 209) →
  statusError code
  = Some (if bool_decide (code ∈ [400; 404; 405]) then ErrUpdateAgent code
          else if bool_decide (code = 403) then ErrAuthentication
          else if bool_decide (code = 413) then ErrTooLarge
          else if bool_decide (code ∈ [500; 502; 503; 504])
               then ErrNotAvailable code
          else ErrBadStatus code).
Proof.
  intros H. unfold statusError.
  assert ((code <? 200) || (code >? 209) = true) as ->.
  { apply orb_true_iff. destruct (Z.ltb_spec code 200); [by left|right].
    apply Z.gtb_lt. lia. }
  repeat match goal with
  | |- context [?a =? ?b] => destruct (Z.eqb_spec a b) as [->|?]; cbn
  end; try done.
  rewrite bool_decide_eq_false_2
    by (rewrite !elem_of_cons, elem_of_nil; naive_solver).
  rewrite (bool_decide_eq_false_2 (code = 403)) by done.
  rewrite (bool_decide_eq_false_2 (code = 413)) by done.
  rewrite bool_decide_eq_false_2
    by (rewrite !elem_of_cons, elem_of_nil; naive_solver).
  done.
Qed.

(** C7: with the request marshalled, built and answered, sendData goes by
    the status code of the response: a code from 200 to 209 leads to the
    check of the body; 400, 404 and 405 give the update-agent error, 403 the
    authentication error, 413 the too-large error, 500, 502, 503 and 504 the
    not-available error, and any other code outside 200..209 the bad-status
    error; outside 200..209 the result is the same for every body and every
    decoder, so the body is not parsed. *)
Theorem status_classification
    NewRequest_err Do Unmarshal n request reqbody resp :
  marshalNRRequest request = Some reqbody →
  NewRequest_err (NewRelic.URL n) = None →
  Do (buildRequest n reqbody) = inr resp →
  let code := StatusCode resp in
  let result := sendData NewRequest_err Do Unmarshal n request in
  (200 ≤ code ≤ 209 → result = checkBody Unmarshal (Body resp)) ∧
  (code ∈ [400; 404; 405] → result = Some (ErrUpdateAgent code)) ∧
  (code = 403 → result = Some ErrAuthentication) ∧
  (code = 413 → result = Some ErrTooLarge) ∧
  (code ∈ [500; 502; 503; 504] → result = Some (ErrNotAvailable code)) ∧
  (¬ (200 ≤ code ≤ 209) →
   code ∉ [400; 404; 405; 403; 413; 500; 502; 503; 504] →
   result = Some (ErrBadStatus code)) ∧
  (¬ (200 ≤ code ≤ 209) →
   ∀ Do' Unmarshal' body',
     Do' (buildRequest n reqbody)
       = inr {| StatusCode := code; Body := body' |} →
     sendData NewRequest_err Do' Unmarshal' n request = result).
Proof.
  intros Hm Hu Hd code result. subst result.
  rewrite (sendData_response _ _ _ _ _ _ _ Hm Hu Hd). fold code.
  repeat split.
  - intros H. by rewrite statusError_accepted.
  - intros H. rewrite statusError_rejected, bool_decide_eq_true_2; [done..|].
    rewrite !elem_of_cons, elem_of_nil in H. lia.
  - intros ->. reflexivity.
  - intros ->. reflexivity.
  - intros H. rewrite !elem_of_cons, elem_of_nil in H.
    destruct H as [->|[->|[->|[->|[]]]]]; reflexivity.
  - intros Hout Hnot. rewrite !not_elem_of_cons in Hnot.
    rewrite statusError_rejected by done.
    rewrite !bool_decide_eq_false_2; [done|..];
      rewrite ?elem_of_cons, ?elem_of_nil; naive_solver.
  - intros Hout Do' Unmarshal' body' Hd'.
    rewrite (sendData_response _ _ _ _ _ _ _ Hm Hu Hd'). cbn [StatusCode].
    by rewrite statusError_rejected.
Qed.

Lemma status_classification_witness :
  let result :=
    sendData Examples.anyURL (Examples.server 403 "")
      Examples.cannedUnmarshal Examples.plugin Examples.request in
  (200 ≤ 403 ≤ 209 → result = checkBody Examples.cannedUnmarshal "") ∧
  (403 ∈ [400; 404; 405] → result = Some (ErrUpdateAgent 403)) ∧
  (403 = 403 → result = Some ErrAuthentication) ∧
  (403 = 413 → result = Some ErrTooLarge) ∧
  (403 ∈ [500; 502; 503; 504] → result = Some (ErrNotAvailable 403)) ∧
  (¬ (200 ≤ 403 ≤ 209) →
   403 ∉ [400; 404; 405; 403; 413; 500; 502; 503; 504] →
   result = Some (ErrBadStatus 403)) ∧
  (¬ (200 ≤ 403 ≤ 209) →
   ∀ Do' Unmarshal' body',
     Do' (buildRequest Examples.plugin
            (JObject [("agent", marshalNRAgent (Agent Examples.request));
                      ("components", JNull)]))
       = inr {| StatusCode := 403; Body := body' |} →
     sendData Examples.anyURL Do' Unmarshal' Examples.plugin Examples.request
     = result).
Proof.
  apply (status_classification Examples.anyURL (Examples.server 403 "")
           Examples.cannedUnmarshal Examples.plugin Examples.request
           (JObject [("agent", marshalNRAgent (Agent Examples.request));
                     ("components", JNull)])
           {| StatusCode := 403; Body := "" |});
    reflexivity.
Defined.

(** C8: on a status code from 200 to 209 the body is decoded into an
    NRResponse: a decoder error fails with the bad-response error; a
    response whose error field is not empty fails with the NewRelic error
    that carries the field; a response whose status field is not "ok" fails
    (with the status-not-ok error when the error field is empty); and the
    response with an empty error field and the status "ok" succeeds. *)
Theorem body_check NewRequest_err Do Unmarshal n request reqbody resp :
  marshalNRRequest request = Some reqbody →
  NewRequest_err (NewRelic.URL n) = None →
  Do (buildRequest n reqbody) = inr resp →
  200 ≤ StatusCode resp ≤ 209 →
  let result := sendData NewRequest_err Do Unmarshal n request in
  (∀ err, Unmarshal (Body resp) = inl err →
          result = Some (ErrBadResponse (Body resp) err)) ∧
  (∀ nrresp, Unmarshal (Body resp) = inr nrresp → Error nrresp ≠ "" →
             result = Some (ErrNewRelic (Error nrresp))) ∧
  (∀ nrresp, Unmarshal (Body resp) = inr nrresp → Status nrresp ≠ "ok" →
             is_Some result ∧
             (Error nrresp = "" →
              result = Some (ErrStatusNotOk (Status nrresp)))) ∧
  (Unmarshal (Body resp) = inr {| Error := ""; Status := "ok" |} →
   result = None).
Proof.
  intros Hm Hu Hd Hcode result. subst result.
  rewrite (sendData_response _ _ _ _ _ _ _ Hm Hu Hd).
  rewrite statusError_accepted by done. unfold checkBody.
  split; [|split; [|split]].
  - by intros err ->.
  - intros nrresp -> Herr.
    destruct (String.eqb_spec (Error nrresp) ""); [done|reflexivity].
  - intros nrresp -> Hst.
    destruct (String.eqb_spec (Error nrresp) "") as [Herr|Herr],
             (String.eqb_spec (Status nrresp) "ok"); cbn;
      try done; split; by eauto.
  - by intros ->.
Qed.

Lemma body_check_witness :
  let result :=
    sendData Examples.anyURL (Examples.server 200 Examples.statusOkBody)
      Examples.cannedUnmarshal Examples.plugin Examples.request in
  (∀ err, Examples.cannedUnmarshal Examples.statusOkBody = inl err →
          result = Some (ErrBadResponse Examples.statusOkBody err)) ∧
  (∀ nrresp, Examples.cannedUnmarshal Examples.statusOkBody = inr nrresp →
             Error nrresp ≠ "" →
             result = Some (ErrNewRelic (Error nrresp))) ∧
  (∀ nrresp, Examples.cannedUnmarshal Examples.statusOkBody = inr nrresp →
             Status nrresp ≠ "ok" →
             is_Some result ∧
             (Error nrresp = "" →
              result = Some (ErrStatusNotOk (Status nrresp)))) ∧
  (Examples.cannedUnmarshal Examples.statusOkBody
     = inr {| Error := ""; Status := "ok" |} →
   result = None).
Proof.
  apply (body_check Examples.anyURL
           (Examples.server 200 Examples.statusOkBody)
           Examples.cannedUnmarshal Examples.plugin Examples.request
           (JObject [("agent", marshalNRAgent (Agent Examples.request));
                     ("components", JNull)])
           {| StatusCode := 200; Body := Examples.statusOkBody |});
    [reflexivity | reflexivity | reflexivity | cbn; lia].
Defined.

(** The scenarios of the tests: status 200 with the ok body, status 200
    with the forced error, and status 401 of a wrong licence. *)
Example send_ok :
  sendData Examples.anyURL
    (Examples.server 200 (Examples.responseOK +:+ nl))
    Examples.cannedUnmarshal Examples.plugin Examples.request = None.
Proof. reflexivity. Qed.

Example send_force_error :
  Error_msg <$>
    sendData Examples.anyURL
      (Examples.server 200 (Examples.responseForceError +:+ nl))
      Examples.cannedUnmarshal Examples.plugin Examples.request
  = Some ("NewRelic error: force error" +:+ nl).
Proof. reflexivity. Qed.

Example send_unauthorized :
  sendData Examples.anyURL (Examples.server 401 "")
    Examples.cannedUnmarshal Examples.plugin Examples.request
  = Some (ErrBadStatus 401).
Proof. reflexivity. Qed.

(** * Connect *)

Lemma Connect_no_licence os n request :
  NewRelic.License n = "" →
  Connect os n request
  = ({| NewRelic.URL := if String.eqb (NewRelic.URL n) "" then newrelic_api
                         else NewRelic.URL n;
        NewRelic.License := NewRelic.License n;
        NewRelic.GUID := NewRelic.GUID n;
        NewRelic.client := NewRelic.client n |},
     request, Some ErrLicence).
Proof.
  intros Hl. unfold Connect.
  destruct (String.eqb (NewRelic.URL n) ""); cbn; rewrite Hl; cbn;
    [done|destruct n; cbn in *; by subst].
Qed.

(** C9, as Connect orders its steps: with an empty licence Connect fails
    with the licence error whatever the operating system would answer (the
    host name is not asked for) and stores no HTTP client; and whenever
    Connect fails, the shared request with the agent identity and the
    licence are as before the call, while the defaults set before the
    failing step stay: an empty URL has become the default URL, and after a
    failed host name lookup an empty GUID has become the default GUID and
    the client is stored. *)
Theorem connect_failure os n request :
  (NewRelic.License n = "" →
   ∃ n', (∀ os', Connect os' n request = (n', request, Some ErrLicence)) ∧
         NewRelic.client n' = NewRelic.client n ∧
         NewRelic.GUID n' = NewRelic.GUID n) ∧
  (∀ n' request' e,
     Connect os n request = (n', request', Some e) →
     request' = request ∧
     NewRelic.License n' = NewRelic.License n ∧
     NewRelic.URL n'
       = (if String.eqb (NewRelic.URL n) "" then newrelic_api
          else NewRelic.URL n) ∧
     (e = ErrLicence ∧ NewRelic.License n = "" ∧
      NewRelic.GUID n' = NewRelic.GUID n ∧
      NewRelic.client n' = NewRelic.client n
      ∨
      (∃ hostname err, Hostname os = (hostname, Some err) ∧
                       e = ErrHostname hostname err) ∧
      NewRelic.License n ≠ "" ∧
      NewRelic.GUID n'
        = (if String.eqb (NewRelic.GUID n) "" then default_guid
           else NewRelic.GUID n) ∧
      NewRelic.client n' = true)).
Proof.
  split.
  - intros Hl. eexists. split; [|split].
    + intros os'. by apply Connect_no_licence.
    + done.
    + done.
  - intros n' request' e. unfold Connect.
    destruct (String.eqb_spec (NewRelic.License n) "") as [Hl|Hl].
    + destruct (String.eqb (NewRelic.URL n) ""); cbn; rewrite Hl; cbn;
        intros [= <- <- <-]; cbn; (split; [done|]); (split; [done|]);
        (split; [done|]); left; done.
    + assert ((NewRelic.License
                 (if String.eqb (NewRelic.URL n) ""
                  then {| NewRelic.URL := newrelic_api;
                          NewRelic.License := NewRelic.License n;
                          NewRelic.GUID := NewRelic.GUID n;
                          NewRelic.client := NewRelic.client n |}
                  else n) =? "")%string = false) as ->.
      { apply String.eqb_neq. by destruct (String.eqb (NewRelic.URL n) ""). }
      destruct (Hostname os) as [hostname [err|]]; [|done].
      intros [= <- <- <-]. cbn.
      split; [done|].
      split; [by destruct (String.eqb (NewRelic.URL n) "")|].
      split; [by destruct (String.eqb (NewRelic.URL n) "")|].
      right. split; [by eauto|]. split; [done|].
      split; [by destruct (String.eqb (NewRelic.URL n) "")|done].
Qed.

Lemma connect_failure_witness :
  ∃ n', (∀ os', Connect os' Examples.unconfigured Examples.request
                = (n', Examples.request, Some ErrLicence)) ∧
        NewRelic.client n' = false ∧
        NewRelic.GUID n' = "".
Proof.
  apply (proj1 (connect_failure Examples.machine Examples.unconfigured
                  Examples.request)).
  reflexivity.
Defined.

(** The claim as the specification words it fails on the plugin without
    URL, GUID and licence: Connect fails and the URL is no longer empty; and
    on the plugin with a licence when the host name lookup fails: URL and
    GUID hold the defaults and the client is stored. *)
Lemma connect_partial_state_counterexample :
  Connect Examples.machine Examples.unconfigured Examples.request
  = ({| NewRelic.URL := newrelic_api; NewRelic.License := "";
        NewRelic.GUID := ""; NewRelic.client := false |},
     Examples.request, Some ErrLicence)
  ∧
  Connect Examples.noHostname Examples.licensed Examples.request
  = ({| NewRelic.URL := newrelic_api; NewRelic.License := "dummy";
        NewRelic.GUID := default_guid; NewRelic.client := true |},
     Examples.request, Some (ErrHostname "" "hostname: not found")).
Proof. split; reflexivity. Qed.

(** A successful Connect fills the agent identity. *)
Example connect_ok :
  Connect Examples.machine Examples.licensed Examples.request
  = ({| NewRelic.URL := newrelic_api; NewRelic.License := "dummy";
        NewRelic.GUID := default_guid; NewRelic.client := true |},
     {| Agent := {| Host := "testhostname"; Version := "1.0.0"; PID := 42 |};
        Components := [] |},
     None).
Proof. reflexivity. Qed.

(** * More on sanitization and the tag string *)

Section SanitizeMore.

Ltac byte_cases c :=
  unfold sanitizedChars; cbn [Str.replaceByte];
  repeat match goal with
  | |- context [Ascii.eqb c ?d] =>
      destruct (Ascii.eqb_spec c d) as [->|?]
  end.

Lemma Replace_app table s1 s2 :
  Str.Replace table (s1 +:+ s2)
  = Str.Replace table s1 +:+ Str.Replace table s2.
Proof.
  induction s1 as [|c s1 IH]; [done|].
  change (String c s1 +:+ s2) with (String c (s1 +:+ s2)).
  cbn [Str.Replace]. by rewrite IH, app_string_assoc.
Qed.

(** X1: sanitization works byte by byte, so the sanitized form of a
    concatenation is the concatenation of the sanitized forms. *)
Theorem sanitize_app s1 s2 :
  sanitize (s1 +:+ s2) = sanitize s1 +:+ sanitize s2.
Proof. apply Replace_app. Qed.

Lemma replaceByte_no_underscore c :
  c ≠ "/"%char → c ≠ ":"%char → c ≠ "\"%char →
  Str.hasChar "_" (Str.replaceByte sanitizedChars c) = false.
Proof.
  intros H1 H2 H3. byte_cases c; try done.
  cbn [Str.hasChar]. destruct (Ascii.eqb_spec "_" c); [congruence|done].
Qed.

Lemma sanitize_no_underscore t :
  Str.hasChar "/" t = false → Str.hasChar ":" t = false →
  Str.hasChar "\" t = false →
  Str.hasChar "_" (sanitize t) = false.
Proof.
  unfold sanitize. induction t as [|c t IH]; [done|].
  cbn [Str.hasChar Str.Replace]. intros H1 H2 H3.
  destruct (Ascii.eqb_spec "/" c); [done|].
  destruct (Ascii.eqb_spec ":" c); [done|].
  destruct (Ascii.eqb_spec "\" c); [done|].
  rewrite hasChar_app, replaceByte_no_underscore by congruence.
  by rewrite IH.
Qed.

Lemma removedChars_elem d :
  d ∈ sanitizedChars.*1 → d ∈ removedChars ∨ d = "_"%char.
Proof.
  intros Hd. cbn in Hd. unfold removedChars.
  repeat (apply elem_of_cons in Hd as [->|Hd]);
    [ .. | by apply elem_of_nil in Hd];
    first [ by right
          | left; repeat first [apply list_elem_of_here
                               | apply list_elem_of_further] ].
Qed.

(** X2: two passes of sanitization reach a fixed point: a third pass
    changes nothing (the second pass deletes the underscores the first one
    wrote, and writes none). *)
Theorem sanitize_stable s :
  sanitize (sanitize (sanitize s)) = sanitize (sanitize s).
Proof.
  apply sanitize_clean. intros d [Hd| ->]%removedChars_elem.
  - by apply sanitize_removed.
  - apply sanitize_no_underscore; apply sanitize_removed; unfold removedChars;
      repeat first [apply list_elem_of_here | apply list_elem_of_further].
Qed.

End SanitizeMore.

(** * More on buildTags *)

Section TagsMore.

(** X3: the tag string is the join, with "/", of the tag values (each
    "ROOT" or sanitized) in the order of the sorted keys other than
    "host"; the keys themselves do not appear. *)
Theorem buildTags_is_join tags :
  buildTags tags
  = Str.Join ((λ k, tagValue (default "" (tags !! k))) <$> tagKeys tags) "/".
Proof. apply buildTags_join. Qed.

Lemma tagKeys_elem tags k :
  k ∈ tagKeys tags ↔ k ≠ "host" ∧ is_Some (tags !! k).
Proof.
  unfold tagKeys. rewrite merge_sort_Permutation, list_elem_of_filter.
  rewrite list_elem_of_fmap. split.
  - intros [Hk ([k' v] & -> & Hin)]. split; [done|].
    apply elem_of_map_to_list in Hin. by eexists.
  - intros [Hk [v Hv]]. split; [done|]. exists (k, v).
    split; [done|]. by apply elem_of_map_to_list.
Qed.

Lemma tagKeys_insert_host tags h :
  tags !! "host" = None → tagKeys (<["host" := h]> tags) = tagKeys tags.
Proof.
  intros Hnone. unfold tagKeys.
  apply (Sorted_unique String.le); [apply Sorted_merge_sort; apply _..|].
  rewrite !merge_sort_Permutation, map_to_list_insert by done.
  rewrite fmap_cons, filter_cons. cbn [fst]. by rewrite decide_False by auto.
Qed.

Lemma buildTags_insert_host tags h :
  tags !! "host" = None → buildTags (<["host" := h]> tags) = buildTags tags.
Proof.
  intros Hnone. rewrite !buildTags_join, tagKeys_insert_host by done.
  f_equal. apply Forall_fmap_ext_1, Forall_forall. intros k Hk.
  apply tagKeys_elem in Hk as [Hk _]. by rewrite lookup_insert_ne.
Qed.

Lemma buildTags_delete_host tags :
  buildTags (delete "host" tags) = buildTags tags.
Proof.
  destruct (tags !! "host") as [h|] eqn:Hh.
  - rewrite <- (insert_delete_id tags "host" h) at 2 by done.
    rewrite buildTags_insert_host; [done|apply lookup_delete_eq].
  - by rewrite delete_id.
Qed.

(** X4: the "host" tag has no part in the tag string: setting, changing
    or deleting it leaves the tag string as it is, and with it the
    statistics map of the sample. *)
Theorem host_tag_ignored m h :
  buildTags (<["host" := h]> (telegraf.Tags m)) = buildTags (telegraf.Tags m)
  ∧ buildTags (delete "host" (telegraf.Tags m)) = buildTags (telegraf.Tags m)
  ∧ serialize (withTags m (<["host" := h]> (telegraf.Tags m))) = serialize m
  ∧ serialize (withTags m (delete "host" (telegraf.Tags m))) = serialize m.
Proof.
  assert (Hins : buildTags (<["host" := h]> (telegraf.Tags m))
                 = buildTags (telegraf.Tags m)).
  { rewrite <- insert_delete_eq.
    rewrite buildTags_insert_host by apply lookup_delete_eq.
    apply buildTags_delete_host. }
  split; [done|]. split; [apply buildTags_delete_host|].
  unfold serialize, withTags. cbn.
  by rewrite Hins, buildTags_delete_host.
Qed.

Lemma countChar_app c s1 s2 :
  countChar c (s1 +:+ s2) = (countChar c s1 + countChar c s2)%nat.
Proof.
  induction s1 as [|d s1 IH]; [done|].
  change (String d s1 +:+ s2) with (String d (s1 +:+ s2)).
  cbn [countChar]. rewrite IH. lia.
Qed.

Lemma countChar_absent c s : Str.hasChar c s = false → countChar c s = O.
Proof.
  induction s as [|d s IH]; [done|]. cbn.
  destruct (Ascii.eqb c d); [done|]. intros H. by rewrite IH.
Qed.

Lemma sanitize_no_slash s : countChar "/" (sanitize s) = O.
Proof.
  apply countChar_absent, sanitize_removed. apply list_elem_of_here.
Qed.

Lemma tagValue_no_slash v : countChar "/" (tagValue v) = O.
Proof.
  unfold tagValue. destruct (String.eqb v "/"); [done|].
  apply sanitize_no_slash.
Qed.

Lemma buildTags_slashes tags :
  countChar "/" (buildTags tags) = pred (length (tagKeys tags)).
Proof.
  rewrite buildTags_join. destruct (tagKeys tags) as [|k keys]; [done|].
  rewrite fmap_cons, Join_cons, countChar_app, tagValue_no_slash.
  cbn [length pred]. induction keys as [|k' keys IH]; [done|].
  rewrite fmap_cons. cbn [foldr length].
  rewrite !countChar_app, tagValue_no_slash, IH. done.
Qed.

Lemma buildTags_empty_keys tags :
  tagKeys tags = [] → buildTags tags = "".
Proof. intros H. unfold buildTags. by rewrite H. Qed.

(** X5: the slashes of a path are its separators only: the tag string of
    a sample with k tags other than "host" has k - 1 slashes, and the path
    of a field has two slashes more than its tag string has segments
    (the tag string is left out when it is empty). *)
Theorem path_separators name tags k :
  countChar "/" (buildTags tags) = pred (length (tagKeys tags)) ∧
  countChar "/" (fieldPath name (buildTags tags) k)
  = (2 + if String.eqb (buildTags tags) "" then 0
         else length (tagKeys tags))%nat.
Proof.
  split; [apply buildTags_slashes|].
  unfold fieldPath, prefix.
  rewrite countChar_app.
  destruct (String.eqb_spec (buildTags tags) "") as [He|Hne].
  - cbn [app Str.Join]. rewrite !countChar_app, !sanitize_no_slash. done.
  - cbn [app Str.Join].
    rewrite !countChar_app, !sanitize_no_slash, buildTags_slashes.
    destruct (tagKeys tags) eqn:Hk; [|cbn; lia].
    by rewrite buildTags_empty_keys in Hne.
Qed.

End TagsMore.

(** * More on serialize and the loops over maps *)

Section SerializeMore.

Lemma prefix_app s1 s2 : String.prefix s1 (s1 +:+ s2) = true.
Proof.
  induction s1 as [|c s1 IH]; [by destruct s2|].
  change (String c s1 +:+ s2) with (String c (s1 +:+ s2)).
  cbn [String.prefix]. by destruct (ascii_dec c c).
Qed.

Lemma serialize_size m :
  (size (serialize m) ≤ size (telegraf.Fields m))%nat.
Proof.
  unfold serialize.
  apply (map_fold_weak_ind (λ r fields, (size r ≤ size fields)%nat)).
  - by rewrite !map_size_empty.
  - intros i x fields r Hi IH. unfold serializeStep.
    rewrite (map_size_insert_None i x fields) by done.
    destruct (fieldValue x); [|lia].
    rewrite map_size_insert. destruct (r !! _); cbn; lia.
Qed.

(** X6: every entry serialize returns is the statistic of one value
    (count 1, min = max = total, sum of squares = total squared) under a
    path that starts with "Component/", and there are at most as many
    entries as the sample has fields; a sample without fields gives the
    empty map. *)
Theorem serialize_entries m :
  (∀ p st, serialize m !! p = Some st →
           st = newStat (Total st) ∧ String.prefix prefix p = true) ∧
  (size (serialize m) ≤ size (telegraf.Fields m))%nat ∧
  (telegraf.Fields m = ∅ → serialize m = ∅).
Proof.
  split; [|split].
  - intros p st Hp.
    destruct (serialize_sound m p st Hp) as (k & v & value & _ & _ & -> & ->).
    split; [done|]. unfold fieldPath. apply prefix_app.
  - apply serialize_size.
  - intros He. apply map_size_empty_inv.
    pose proof (serialize_size m) as Hs.
    rewrite He, map_size_empty in Hs. lia.
Qed.

(** X7: the search of equalsTags over the whole grouping map comes down
    to one lookup: it answers true exactly when the map has an entry
    under the sample's name and the tag string stored there is the
    sample's. Entries under other names never match. *)
Theorem equalsTags_lookup table search :
  equalsTags table search
  = match table !! telegraf.Name search with
    | Some a => String.eqb (buildTags (telegraf.Tags search)) (Tags a)
    | None => false
    end.
Proof.
  destruct (equalsTags table search) eqn:E.
  - apply equalsTags_spec in E as (a & -> & Ht).
    symmetry. by apply String.eqb_eq.
  - destruct (table !! telegraf.Name search) as [a|] eqn:Ha; [|done].
    destruct (String.eqb_spec (buildTags (telegraf.Tags search)) (Tags a))
      as [Ht|]; [|done].
    assert (equalsTags table search = true) as Htrue
      by (apply equalsTags_spec; eauto).
    congruence.
Qed.

(** X8: the two loops that write a sample's statistics into a component
    work path by path, whatever the order the map is ranged over: a path
    the sample does not have keeps its entry; a path it has gets the
    merged statistic in the merging loop and the sample's own statistic
    in the other loop; and in both the paths afterwards are those of
    before and those of the sample. *)
Theorem metrics_loops_pointwise (M new : gmap string NRMetric) :
  (∀ p, mergeMetrics M new !! p
        = match new !! p with
          | Some v => Some (mergeStat (M !! p) v)
          | None => M !! p
          end) ∧
  (∀ p, addMetrics M new !! p
        = match new !! p with
          | Some v => Some v
          | None => M !! p
          end) ∧
  dom (mergeMetrics M new) = dom M ∪ dom new ∧
  dom (addMetrics M new) = dom M ∪ dom new.
Proof.
  split; [apply mergeMetrics_lookup|]. split; [apply addMetrics_lookup|].
  split; [apply mergeMetrics_dom|apply addMetrics_dom].
Qed.

End SerializeMore.

(** * Invariants of the loop of BuildComponents *)

Section BuildInvariants.

Variable n : NewRelic.t.
Variable host : string.

Lemma aggregate_snoc metrics m :
  aggregate n host (metrics ++ [m])
  = buildStep n host (aggregate n host metrics) m.
Proof. unfold aggregate. by rewrite foldl_app. Qed.

(** A property of the entries that every branch of the loop body keeps
    holds of every entry at the end. *)
Lemma aggregate_inv
    (I : list telegraf.Metric → string → Aggregator → Prop) :
  (∀ seen m name a, I seen name a → I (seen ++ [m]) name a) →
  (∀ seen m,
     I (seen ++ [m]) (telegraf.Name m)
       {| Tags := buildTags (telegraf.Tags m);
          Component := newComponent n host m |}) →
  (∀ seen m a,
     I seen (telegraf.Name m) a → buildTags (telegraf.Tags m) = Tags a →
     I (seen ++ [m]) (telegraf.Name m)
       (withMetrics a (mergeMetrics (Metrics (Component a))
                         (serialize m)))) →
  (∀ seen m a,
     I seen (telegraf.Name m) a → buildTags (telegraf.Tags m) ≠ Tags a →
     I (seen ++ [m]) (telegraf.Name m)
       (withMetrics a (addMetrics (Metrics (Component a))
                         (serialize m)))) →
  ∀ metrics name a,
    aggregate n host metrics !! name = Some a → I metrics name a.
Proof.
  intros Hmono Hnew Hmerge Hover metrics.
  induction metrics as [|m metrics IH] using rev_ind; intros name a.
  - unfold aggregate. cbn. by rewrite lookup_empty.
  - rewrite aggregate_snoc.
    destruct (decide (name = telegraf.Name m)) as [->|Hne].
    + destruct (aggregate n host metrics !! telegraf.Name m) as [b|] eqn:Hb.
      * destruct (decide (buildTags (telegraf.Tags m) = Tags b)) as [Ht|Ht].
        -- rewrite (buildStep_merge n host _ _ b Hb Ht), lookup_insert_eq.
           intros [= <-]. apply Hmerge; [by apply IH|done].
        -- rewrite (buildStep_overwrite n host _ _ b Hb Ht), lookup_insert_eq.
           intros [= <-]. apply Hover; [by apply IH|done].
      * rewrite (buildStep_new n host _ _ Hb). intros [= <-]. apply Hnew.
    + rewrite buildStep_other by done. intros Ha. apply Hmono. by apply IH.
Qed.

Lemma BuildComponents_elem request metrics c :
  c ∈ BuildComponents n request metrics ↔
  ∃ name a, aggregate n (Host (Agent request)) metrics !! name = Some a ∧
            c = Component a.
Proof.
  rewrite BuildComponents_perm, list_elem_of_fmap. split.
  - intros (a & -> & ([k a'] & -> & Hin)%list_elem_of_fmap).
    apply elem_of_map_to_list in Hin. by exists k, a'.
  - intros (name & a & Ha & ->). exists a. split; [done|].
    apply list_elem_of_fmap. exists (name, a). split; [done|].
    by apply elem_of_map_to_list.
Qed.

End BuildInvariants.

Lemma BuildComponents_identity n request metrics c :
  c ∈ BuildComponents n request metrics →
  GUID c = NewRelic.GUID n ∧ Duration c = 60 ∧
  ∃ s, s ∈ metrics ∧ Name c = effectiveHost (Host (Agent request)) s.
Proof.
  intros (name & a & Ha & ->)%BuildComponents_elem.
  revert metrics name a Ha.
  apply (aggregate_inv n (Host (Agent request))
    (λ seen name a,
       GUID (Component a) = NewRelic.GUID n ∧ Duration (Component a) = 60 ∧
       ∃ s, s ∈ seen ∧
            Name (Component a) = effectiveHost (Host (Agent request)) s)).
  - intros seen m name a (? & ? & s & ? & ?). repeat split; [done..|].
    exists s. split; [|done]. apply elem_of_app. by left.
  - intros seen m. repeat split. exists m. split; [|done].
    apply elem_of_app. right. apply list_elem_of_here.
  - intros seen m a (? & ? & s & ? & ?) _. repeat split; [done..|].
    exists s. split; [|done]. apply elem_of_app. by left.
  - intros seen m a (? & ? & s & ? & ?) _. repeat split; [done..|].
    exists s. split; [|done]. apply elem_of_app. by left.
Qed.

(** X9: every component BuildComponents returns carries the GUID of the
    plugin and the duration 60, and is named after a sample of the batch:
    by the value of its "host" tag, or by the agent's host when it has no
    such tag. *)
Theorem components_identity n request metrics c :
  c ∈ BuildComponents n request metrics →
  GUID c = NewRelic.GUID n ∧ Duration c = 60 ∧
  ∃ s, s ∈ metrics ∧
       Name c = match telegraf.Tags s !! "host" with
                | Some h => h
                | None => Host (Agent request)
                end.
Proof.
  intros (HG & HD & s & Hs & HN)%BuildComponents_identity.
  split; [done|]. split; [done|]. exists s. split; [done|].
  rewrite HN. unfold effectiveHost, telegraf.HasTag.
  destruct (telegraf.Tags s !! "host") as [h|]; [|done].
  by rewrite bool_decide_eq_true_2 by (by eexists).
Qed.

Lemma components_identity_witness :
  GUID (Examples.web1Component "test.sonica.telegraf")
    = "test.sonica.telegraf" ∧
  Duration (Examples.web1Component "test.sonica.telegraf") = 60 ∧
  ∃ s, s ∈ [Examples.s3; Examples.s1; Examples.b1] ∧
       Name (Examples.web1Component "test.sonica.telegraf")
       = match telegraf.Tags s !! "host" with
         | Some h => h
         | None => Host (Agent Examples.request)
         end.
Proof.
  apply (components_identity Examples.plugin Examples.request
           [Examples.s3; Examples.s1; Examples.b1]).
  vm_compute. apply list_elem_of_here.
Defined.

Lemma contributedAt_mono seen m name p x :
  contributedAt seen name p x → contributedAt (seen ++ [m]) name p x.
Proof.
  intros (s & v & Hs & ?). exists s, v. split; [|done].
  apply elem_of_app. by left.
Qed.

Lemma contributedAt_last seen m p v :
  serialize m !! p = Some v →
  contributedAt (seen ++ [m]) (telegraf.Name m) p (Total v).
Proof.
  intros Hv. exists m, v. split; [|done].
  apply elem_of_app. right. apply list_elem_of_here.
Qed.

Lemma serialize_min_max m p v :
  serialize m !! p = Some v → Max v = Total v ∧ Min v = Total v.
Proof.
  intros H. by destruct (serialize_sound m p v H) as (?&?&?&_&_&_&->).
Qed.

(** X10: the components hold nothing the batch did not bring: all paths of
    a component come from samples of one name, and the max and the min of
    every path are values that samples of that name have at that path. *)
Theorem components_origin n request metrics c :
  c ∈ BuildComponents n request metrics →
  ∃ name, ∀ p st,
    Metrics c !! p = Some st →
    contributedAt metrics name p (Max st) ∧
    contributedAt metrics name p (Min st).
Proof.
  intros (name & a & Ha & ->)%BuildComponents_elem. exists name.
  revert metrics name a Ha.
  apply (aggregate_inv n (Host (Agent request))
    (λ seen name a, ∀ p st,
       Metrics (Component a) !! p = Some st →
       contributedAt seen name p (Max st) ∧
       contributedAt seen name p (Min st))).
  - intros seen m name a IH p st Hp.
    destruct (IH p st Hp). split; by apply contributedAt_mono.
  - intros seen m p st Hp. cbn in Hp.
    destruct (serialize_min_max _ _ _ Hp) as [-> ->].
    split; by apply contributedAt_last.
  - intros seen m a IH _ p st. cbn. rewrite mergeMetrics_lookup.
    destruct (serialize m !! p) as [v|] eqn:Hv.
    + intros [= <-]. cbn [mergeStat Max Min].
      destruct (Metrics (Component a) !! p) as [t|] eqn:Ht; cbn.
      * destruct (IH p t Ht) as [Hmax Hmin].
        split.
        -- destruct (PrimFloat.ltb (Max t) (Total v));
             [by apply contributedAt_last|by apply contributedAt_mono].
        -- destruct (PrimFloat.ltb (Total v) (Min t));
             [by apply contributedAt_last|by apply contributedAt_mono].
      * split; by apply contributedAt_last.
    + intros Hp. destruct (IH p st Hp). split; by apply contributedAt_mono.
  - intros seen m a IH _ p st. cbn. rewrite addMetrics_lookup.
    destruct (serialize m !! p) as [v|] eqn:Hv.
    + intros [= <-]. destruct (serialize_min_max _ _ _ Hv) as [-> ->].
      split; by apply contributedAt_last.
    + intros Hp. destruct (IH p st Hp). split; by apply contributedAt_mono.
Qed.

Lemma components_origin_witness :
  ∃ name, ∀ p st,
    Metrics Examples.mixedComponent !! p = Some st →
    contributedAt [Examples.s1; Examples.s2; Examples.b1; Examples.b2]
      name p (Max st) ∧
    contributedAt [Examples.s1; Examples.s2; Examples.b1; Examples.b2]
      name p (Min st).
Proof.
  apply (components_origin Examples.plugin Examples.request
           [Examples.s1; Examples.s2; Examples.b1; Examples.b2]).
  vm_compute. apply list_elem_of_here.
Defined.

Lemma contributorsOf_snoc name p seen m :
  contributorsOf name p (seen ++ [m])
  = (contributorsOf name p seen
     + if decide (telegraf.Name m = name ∧ is_Some (serialize m !! p))
       then 1 else 0)%nat.
Proof.
  unfold contributorsOf. rewrite filter_app, length_app. f_equal.
  rewrite filter_cons, filter_nil. by case_decide.
Qed.

Lemma contributorsOf_le name p seen :
  (contributorsOf name p seen ≤ length seen)%nat.
Proof. apply length_filter. Qed.

Lemma contributorsOf_last p seen m v :
  serialize m !! p = Some v →
  contributorsOf (telegraf.Name m) p (seen ++ [m])
  = S (contributorsOf (telegraf.Name m) p seen).
Proof.
  intros Hv. rewrite contributorsOf_snoc, decide_True; [lia|].
  split; [done|by eexists].
Qed.

(** X11: in a batch of fewer than 2^63 samples the count of a path is at
    least 1 and at most the number of samples of the component's name that
    have the path: a sample is never counted twice. *)
Theorem count_bounds n request metrics c :
  Z.of_nat (length metrics) < 2 ^ 63 →
  c ∈ BuildComponents n request metrics →
  ∃ name, ∀ p st,
    Metrics c !! p = Some st →
    1 ≤ Count st ≤ Z.of_nat (contributorsOf name p metrics).
Proof.
  intros Hlen (name & a & Ha & ->)%BuildComponents_elem. exists name.
  revert Hlen. revert metrics name a Ha.
  apply (aggregate_inv n (Host (Agent request))
    (λ seen name a,
       Z.of_nat (length seen) < 2 ^ 63 →
       ∀ p st, Metrics (Component a) !! p = Some st →
               1 ≤ Count st ≤ Z.of_nat (contributorsOf name p seen))).
  - intros seen m name a IH Hlen p st Hp. rewrite length_app in Hlen.
    specialize (IH ltac:(lia) p st Hp). rewrite contributorsOf_snoc. lia.
  - intros seen m _ p st Hp. cbn in Hp.
    rewrite (contributorsOf_last _ _ _ _ Hp), (serialize_count _ _ _ Hp). lia.
  - intros seen m a IH _ Hlen p st. rewrite length_app in Hlen. cbn in Hlen.
    cbn. rewrite mergeMetrics_lookup.
    destruct (serialize m !! p) as [v|] eqn:Hv.
    + intros [= <-]. rewrite (contributorsOf_last _ _ _ _ Hv).
      cbn [mergeStat Count].
      destruct (Metrics (Component a) !! p) as [t|] eqn:Ht; cbn.
      * specialize (IH ltac:(lia) p t Ht).
        pose proof (contributorsOf_le (telegraf.Name m) p seen).
        rewrite wrapInt_small; lia.
      * rewrite wrapInt_small; lia.
    + intros Hp. specialize (IH ltac:(lia) p st Hp).
      rewrite contributorsOf_snoc. lia.
  - intros seen m a IH _ Hlen p st. rewrite length_app in Hlen. cbn in Hlen.
    cbn. rewrite addMetrics_lookup.
    destruct (serialize m !! p) as [v|] eqn:Hv.
    + intros [= <-].
      rewrite (contributorsOf_last _ _ _ _ Hv), (serialize_count _ _ _ Hv). lia.
    + intros Hp. specialize (IH ltac:(lia) p st Hp).
      rewrite contributorsOf_snoc. lia.
Qed.

Lemma count_bounds_witness :
  ∃ name, ∀ p st,
    Metrics Examples.mixedComponent !! p = Some st →
    1 ≤ Count st
      ≤ Z.of_nat
          (contributorsOf name p
             [Examples.s1; Examples.s2; Examples.b1; Examples.b2]).
Proof.
  apply (count_bounds Examples.plugin Examples.request
           [Examples.s1; Examples.s2; Examples.b1; Examples.b2]).
  - cbn. lia.
  - vm_compute. apply list_elem_of_here.
Defined.

Lemma aggregate_distinct n host metrics :
  NoDup (telegraf.Name <$> metrics) →
  map_to_list (aggregate n host metrics)
  ≡ₚ (λ m, (telegraf.Name m,
            {| Tags := buildTags (telegraf.Tags m);
               Component := newComponent n host m |})) <$> metrics.
Proof.
  induction metrics as [|m metrics IH] using rev_ind; intros Hnd.
  - unfold aggregate. cbn. by rewrite map_to_list_empty.
  - rewrite fmap_app in Hnd. apply NoDup_app in Hnd as (Hnd & Hfresh & _).
    assert (Hnone : aggregate n host metrics !! telegraf.Name m = None).
    { apply not_elem_of_dom. rewrite aggregate_dom, elem_of_list_to_set.
      intros Hin. apply (Hfresh _ Hin). apply list_elem_of_here. }
    rewrite aggregate_snoc. unfold buildStep. rewrite Hnone.
    rewrite map_to_list_insert by done.
    rewrite fmap_app, (IH Hnd). cbn.
    by rewrite Permutation_cons_append.
Qed.

(** X12: a batch whose samples have pairwise different names gives one
    component per sample: named after the sample's host, with the
    plugin's GUID, the duration 60 and exactly the statistics of that
    sample. *)
Theorem components_of_distinct_names n request metrics :
  NoDup (telegraf.Name <$> metrics) →
  BuildComponents n request metrics
  ≡ₚ newComponent n (Host (Agent request)) <$> metrics.
Proof.
  intros Hnd. rewrite BuildComponents_perm.
  rewrite (aggregate_distinct _ _ _ Hnd), <- !list_fmap_compose.
  done.
Qed.

Lemma components_of_distinct_names_witness :
  BuildComponents Examples.plugin Examples.request [Examples.m1; Examples.m2]
  ≡ₚ newComponent Examples.plugin (Host (Agent Examples.request))
       <$> [Examples.m1; Examples.m2].
Proof.
  apply (components_of_distinct_names Examples.plugin Examples.request
           [Examples.m1; Examples.m2]).
  cbn. apply NoDup_cons. split; [|apply NoDup_singleton].
  rewrite list_elem_of_singleton. discriminate.
Defined.

(** X13: in a batch of fewer than 2^63 samples that all have the name and
    the tag string of the first one, every path is counted once per sample
    that has it: its entry exists exactly when some sample has the path,
    and its count is the number of those samples. *)
Theorem count_of_one_group n host first rest :
  Forall (λ s, telegraf.Name s = telegraf.Name first ∧
               buildTags (telegraf.Tags s)
               = buildTags (telegraf.Tags first)) rest →
  Z.of_nat (length (first :: rest)) < 2 ^ 63 →
  ∃ a, aggregate n host (first :: rest) !! telegraf.Name first = Some a ∧
       ∀ p, Count <$> (Metrics (Component a) !! p)
            = (if contributors p (first :: rest) is O then None
               else Some (Z.of_nat (contributors p (first :: rest)))).
Proof. apply first_group_count. Qed.

Lemma count_of_one_group_witness :
  ∃ a, aggregate Examples.plugin "testhostname"
         (Examples.m1 :: [Examples.m3; Examples.m5]) !! "m1" = Some a ∧
       ∀ p, Count <$> (Metrics (Component a) !! p)
            = (if contributors p (Examples.m1 :: [Examples.m3; Examples.m5])
                 is O then None
               else Some (Z.of_nat
                            (contributors p
                               (Examples.m1 :: [Examples.m3; Examples.m5])))).
Proof.
  apply (count_of_one_group Examples.plugin "testhostname"
           Examples.m1 [Examples.m3; Examples.m5]).
  - repeat constructor.
  - cbn. lia.
Defined.

Lemma foldl_buildStep_one_group n host rest aggregator name a :
  aggregator !! name = Some a →
  Forall (λ s, telegraf.Name s = name ∧
               buildTags (telegraf.Tags s) = Tags a) rest →
  ∃ a', foldl (buildStep n host) aggregator rest !! name = Some a' ∧
        Tags a' = Tags a ∧
        ∀ p, Metrics (Component a') !! p
             = pathFold p (Metrics (Component a) !! p) rest.
Proof.
  revert aggregator a.
  induction rest as [|s rest IH]; intros aggregator a Ha Hall.
  - exists a. by repeat split.
  - apply Forall_cons in Hall as [[<- Ht] Hall]. cbn [foldl].
    rewrite (buildStep_merge n host _ _ a Ha Ht).
    edestruct (IH (<[telegraf.Name s :=
                      withMetrics a (mergeMetrics (Metrics (Component a))
                                       (serialize s))]> aggregator))
      as (a' & Ha' & Ht' & Hp); [apply lookup_insert_eq|done|].
    exists a'. split; [done|]. split; [done|].
    intros p. rewrite Hp. cbn. by rewrite mergeMetrics_lookup.
Qed.

(** X17: in a batch whose samples all have the name and the tag string of
    the first one, the paths are aggregated independently of one another:
    the statistic of a path is what results from merging, in batch order,
    the samples that have the path into the entry of the first sample (or
    into nothing, when the first sample lacks the path). *)
Theorem one_group_statistics n host first rest :
  Forall (λ s, telegraf.Name s = telegraf.Name first ∧
               buildTags (telegraf.Tags s)
               = buildTags (telegraf.Tags first)) rest →
  ∃ a, aggregate n host (first :: rest) !! telegraf.Name first = Some a ∧
       ∀ p, Metrics (Component a) !! p
            = pathFold p (serialize first !! p) rest.
Proof.
  intros Hall. unfold aggregate. cbn [foldl].
  edestruct (foldl_buildStep_one_group n host rest
               (buildStep n host ∅ first)) as (a & Ha & _ & Hp);
    [by apply buildStep_new|exact Hall|].
  by exists a.
Qed.

Lemma one_group_statistics_witness :
  ∃ a, aggregate Examples.plugin "testhostname"
         (Examples.m1 :: [Examples.m3; Examples.m5]) !! "m1" = Some a ∧
       ∀ p, Metrics (Component a) !! p
            = pathFold p (serialize Examples.m1 !! p)
                [Examples.m3; Examples.m5].
Proof.
  apply (one_group_statistics Examples.plugin "testhostname"
           Examples.m1 [Examples.m3; Examples.m5]).
  repeat constructor.
Defined.

Lemma size_list_to_set_le (l : list string) :
  (size (list_to_set l : gset string) ≤ length l)%nat.
Proof.
  induction l as [|x l IH]; cbn; [by rewrite size_empty|].
  rewrite size_union_alt, size_singleton.
  pose proof (subseteq_size (list_to_set l ∖ {[x]}) (list_to_set l : gset string)
                ltac:(set_solver)). lia.
Qed.

(** X21: there are never more components than samples, and the result is
    empty only for the empty batch. *)
Theorem components_bounded n request metrics :
  (length (BuildComponents n request metrics) ≤ length metrics)%nat ∧
  (BuildComponents n request metrics = [] ↔ metrics = []).
Proof.
  split.
  - rewrite BuildComponents_length.
    etrans; [apply size_list_to_set_le|]. by rewrite length_fmap.
  - split.
    + intros Hnil. destruct metrics as [|m metrics]; [done|].
      by destruct (BuildComponents_nonempty n request (m :: metrics)).
    + intros ->. reflexivity.
Qed.

(** * More on sendData, Connect and Write *)

Lemma statusError_None code : statusError code = None ↔ 200 ≤ code ≤ 209.
Proof.
  split; [|apply statusError_accepted].
  intros H. destruct (decide (200 ≤ code ≤ 209)) as [|Hout]; [done|].
  by rewrite (statusError_rejected code Hout) in H.
Qed.

(** X14: sendData succeeds exactly when every stage does: the request
    marshals, the URL is accepted, the client returns a response, its
    status code lies in 200..209, and its body decodes to an empty error
    field and the status "ok". *)
Theorem sendData_success NewRequest_err Do Unmarshal n request :
  sendData NewRequest_err Do Unmarshal n request = None ↔
  ∃ reqbody resp,
    marshalNRRequest request = Some reqbody ∧
    NewRequest_err (NewRelic.URL n) = None ∧
    Do (buildRequest n reqbody) = inr resp ∧
    200 ≤ StatusCode resp ≤ 209 ∧
    Unmarshal (Body resp) = inr {| Error := ""; Status := "ok" |}.
Proof.
  unfold sendData, checkBody. split.
  - destruct (marshalNRRequest request) as [reqbody|] eqn:Hm; [|done].
    destruct (NewRequest_err (NewRelic.URL n)) eqn:Hu; [done|].
    destruct (Do (buildRequest n reqbody)) as [|resp] eqn:Hdo; [done|].
    destruct (statusError (StatusCode resp)) eqn:Hst; [done|].
    apply statusError_None in Hst.
    destruct (Unmarshal (Body resp)) as [|[err status]] eqn:Hb; [done|]. cbn.
    destruct (String.eqb_spec err ""); [|done].
    destruct (String.eqb_spec status "ok"); [|done].
    intros _. subst. by exists reqbody, resp.
  - intros (reqbody & resp & -> & -> & -> & Hcode & ->).
    by rewrite statusError_accepted.
Qed.

Lemma Connect_ok os n request n' request' :
  Connect os n request = (n', request', None) →
  NewRelic.License n ≠ "" ∧ (Hostname os).2 = None ∧
  n' = {| NewRelic.URL := if String.eqb (NewRelic.URL n) "" then newrelic_api
                          else NewRelic.URL n;
          NewRelic.License := NewRelic.License n;
          NewRelic.GUID := if String.eqb (NewRelic.GUID n) "" then default_guid
                           else NewRelic.GUID n;
          NewRelic.client := true |} ∧
  request' = {| Agent := {| Host := (Hostname os).1; Version := "1.0.0";
                            PID := Getpid os |};
                Components := Components request |}.
Proof.
  intros H. unfold Connect in H.
  destruct (String.eqb_spec (NewRelic.License n) "") as [Hl|Hl].
  { exfalso. destruct (String.eqb (NewRelic.URL n) ""); cbn in H;
      rewrite Hl in H; cbn in H; discriminate. }
  destruct (Hostname os) as [hostname [err|]] eqn:Hh;
    destruct (String.eqb (NewRelic.URL n) ""); cbn in H;
    rewrite (proj2 (String.eqb_neq (NewRelic.License n) "") Hl) in H;
    cbn in H; simplify_eq; done.
Qed.



(** X16: Connect is idempotent: after a successful Connect, a second one
    on the same machine succeeds and changes neither the plugin nor the
    shared request. *)
Theorem connect_twice os n request n' request' :
  Connect os n request = (n', request', None) →
  Connect os n' request' = (n', request', None).
Proof.
  intros (Hl & Hh & -> & ->)%Connect_ok. unfold Connect. cbn.
  destruct (Hostname os) as [hostname [err|]]; [done|]. cbn.
  apply String.eqb_neq in Hl.
  destruct (String.eqb (NewRelic.URL n) "") eqn:Hu,
           (String.eqb (NewRelic.GUID n) "") eqn:Hg; cbn;
    rewrite ?Hu, ?Hg; cbn; rewrite Hl; cbn; rewrite ?Hg; done.
Qed.

Lemma connect_twice_witness :
  Connect Examples.machine
    {| NewRelic.URL := newrelic_api; NewRelic.License := "dummy";
       NewRelic.GUID := default_guid; NewRelic.client := true |}
    {| Agent := {| Host := "testhostname"; Version := "1.0.0"; PID := 42 |};
       Components := [] |}
  = ({| NewRelic.URL := newrelic_api; NewRelic.License := "dummy";
        NewRelic.GUID := default_guid; NewRelic.client := true |},
     {| Agent := {| Host := "testhostname"; Version := "1.0.0"; PID := 42 |};
        Components := [] |},
     None).
Proof.
  apply (connect_twice Examples.machine Examples.licensed Examples.request).
  reflexivity.
Defined.

(** X18: Write keeps nothing of earlier batches: after any earlier Write,
    a Write of a batch that is not empty stores and sends the components of
    that batch alone, with the agent identity untouched, and so returns
    what it would have returned without the earlier Write. *)
Theorem Write_replaces
    NewRequest_err Do Unmarshal NewRequest_err' Do' Unmarshal'
    n request metrics1 metrics2 :
  metrics2 ≠ [] →
  Write NewRequest_err Do Unmarshal n
    (Write NewRequest_err' Do' Unmarshal' n request metrics1).1 metrics2
  = Write NewRequest_err Do Unmarshal n request metrics2
  ∧ Agent (Write NewRequest_err Do Unmarshal n request metrics2).1
    = Agent request
  ∧ Components (Write NewRequest_err Do Unmarshal n request metrics2).1
    = BuildComponents n request metrics2.
Proof.
  intros Hne. rewrite !(Write_sends _ _ _ _ _ metrics2) by done. cbn.
  assert (Agent (Write NewRequest_err' Do' Unmarshal' n request metrics1).1
          = Agent request) as Ha by (by destruct metrics1).
  unfold BuildComponents. rewrite Ha. done.
Qed.

Lemma Write_replaces_witness :
  Write Examples.anyURL (Examples.server 200 Examples.statusOkBody)
    Examples.cannedUnmarshal Examples.plugin
    (Write Examples.anyURL (Examples.server 403 "")
       Examples.cannedUnmarshal Examples.plugin Examples.request
       [Examples.m1]).1
    [Examples.m2]
  = Write Examples.anyURL (Examples.server 200 Examples.statusOkBody)
      Examples.cannedUnmarshal Examples.plugin Examples.request [Examples.m2]
  ∧ Agent (Write Examples.anyURL (Examples.server 200 Examples.statusOkBody)
             Examples.cannedUnmarshal Examples.plugin Examples.request
             [Examples.m2]).1
    = Agent Examples.request
  ∧ Components
      (Write Examples.anyURL (Examples.server 200 Examples.statusOkBody)
         Examples.cannedUnmarshal Examples.plugin Examples.request
         [Examples.m2]).1
    = BuildComponents Examples.plugin Examples.request [Examples.m2].
Proof.
  apply (Write_replaces Examples.anyURL
           (Examples.server 200 Examples.statusOkBody)
           Examples.cannedUnmarshal
           Examples.anyURL (Examples.server 403 "") Examples.cannedUnmarshal
           Examples.plugin Examples.request [Examples.m1] [Examples.m2]).
  discriminate.
Defined.

(** X19: after a successful Connect every component built carries a GUID
    that is not empty (the configured one, or the default), the duration
    60, and as its name the value of the "host" tag of a sample of the
    batch or, for a sample without such a tag, the host name of the
    machine. *)
Theorem connected_components os n request n' request' metrics c :
  Connect os n request = (n', request', None) →
  c ∈ BuildComponents n' request' metrics →
  GUID c ≠ "" ∧
  GUID c = (if String.eqb (NewRelic.GUID n) "" then default_guid
            else NewRelic.GUID n) ∧
  Duration c = 60 ∧
  ∃ s, s ∈ metrics ∧
       Name c = match telegraf.Tags s !! "host" with
                | Some h => h
                | None => (Hostname os).1
                end.
Proof.
  intros (_ & _ & -> & ->)%Connect_ok
         (HG & HD & s & Hs & HN)%BuildComponents_identity.
  cbn in *. rewrite HG.
  split; [by destruct (String.eqb_spec (NewRelic.GUID n) "")|].
  split; [done|]. split; [done|]. exists s. split; [done|].
  rewrite HN. unfold effectiveHost, telegraf.HasTag.
  destruct (telegraf.Tags s !! "host") as [h|]; [|done].
  by rewrite bool_decide_eq_true_2 by (by eexists).
Qed.

Lemma connected_components_witness :
  GUID (Examples.web1Component default_guid) ≠ "" ∧
  GUID (Examples.web1Component default_guid) = default_guid ∧
  Duration (Examples.web1Component default_guid) = 60 ∧
  ∃ s, s ∈ [Examples.s3; Examples.s1; Examples.b1] ∧
       Name (Examples.web1Component default_guid)
       = match telegraf.Tags s !! "host" with
         | Some h => h
         | None => (Hostname Examples.machine).1
         end.
Proof.
  apply (connected_components Examples.machine Examples.licensed
           Examples.request
           {| NewRelic.URL := newrelic_api; NewRelic.License := "dummy";
              NewRelic.GUID := default_guid; NewRelic.client := true |}
           {| Agent := {| Host := "testhostname"; Version := "1.0.0";
                          PID := 42 |};
              Components := [] |}
           [Examples.s3; Examples.s1; Examples.b1]).
  - reflexivity.
  - vm_compute. apply list_elem_of_here.
Defined.

(** * When the request can be marshalled *)

Section MarshalMore.

Lemma marshalOptFloat_is_Some key f :
  is_Some (marshalOptFloat key f)
  ↔ PrimFloat.is_zero f || PrimFloat.is_finite f = true.
Proof.
  unfold marshalOptFloat, marshalFloat.
  destruct (PrimFloat.is_zero f), (PrimFloat.is_finite f); cbn;
    split; try done; try (by intros [? ?]); by eexists.
Qed.

Lemma marshalNRMetric_is_Some st :
  is_Some (marshalNRMetric st) ↔ encodable st = true.
Proof.
  unfold marshalNRMetric, encodable. rewrite !andb_true_iff.
  rewrite <- (marshalOptFloat_is_Some "min"),
          <- (marshalOptFloat_is_Some "max"),
          <- (marshalOptFloat_is_Some "sum_of_squares").
  unfold marshalFloat.
  destruct (PrimFloat.is_finite (Total st)); cbn;
    [|split; [by intros [? ?]|by intros [[[? ?] ?] ?]]].
  destruct (marshalOptFloat "min" (Min st)); cbn;
    [|split; [by intros [? ?]|by intros [[[? [? ?]] ?] ?]]].
  destruct (marshalOptFloat "max" (Max st)); cbn;
    [|split; [by intros [? ?]|by intros [[? [? ?]] ?]]].
  destruct (marshalOptFloat "sum_of_squares" (SumOfSquares st)); cbn;
    [|split; [by intros [? ?]|by intros [? [? ?]]]].
  split; [intros _; repeat split; by eexists|by eexists].
Qed.

Lemma marshalMetrics_is_Some M :
  is_Some (marshalMetrics M) ↔
  ∀ p st, M !! p = Some st → encodable st = true.
Proof.
  unfold marshalMetrics.
  assert (is_Some
            (mapM (λ kv : string * NRMetric,
                     marshalNRMetric kv.2 ≫= λ j, Some (kv.1, j))
                  (merge_sort keyLe (map_to_list M)))
          ↔ ∀ p st, M !! p = Some st → encodable st = true) as <-.
  { rewrite mapM_is_Some, merge_sort_Permutation, Forall_forall. split.
    - intros H p st Hp. apply marshalNRMetric_is_Some.
      specialize (H (p, st)). cbn in H.
      destruct (marshalNRMetric st); [by eexists|].
      destruct H as [? H]; [by apply elem_of_map_to_list|done].
    - intros H [p st] Hp%elem_of_map_to_list. cbn.
      apply H, marshalNRMetric_is_Some in Hp as [j ->]. by eexists. }
  match goal with
  | |- context [mapM ?f ?l] => destruct (mapM f l)
  end; cbn; [split; by eexists|split; by intros [? ?]].
Qed.

Lemma marshalNRComponent_is_Some c :
  is_Some (marshalNRComponent c) ↔
  ∀ p st, Metrics c !! p = Some st → encodable st = true.
Proof.
  rewrite <- marshalMetrics_is_Some. unfold marshalNRComponent.
  destruct (marshalMetrics (Metrics c)); cbn;
    [split; by eexists|split; by intros [? ?]].
Qed.

(** X20: the request can be marshalled exactly when every statistic of
    every component can: a NaN or infinite total, or a NaN or infinite
    min, max or sum of squares, in one path makes the whole request
    fail, and nothing else does. *)
Theorem marshal_succeeds r :
  is_Some (marshalNRRequest r) ↔
  ∀ c, c ∈ Components r →
       ∀ p st, Metrics c !! p = Some st → encodable st = true.
Proof.
  unfold marshalNRRequest.
  assert (is_Some (mapM marshalNRComponent (Components r)) ↔
          ∀ c, c ∈ Components r →
               ∀ p st, Metrics c !! p = Some st → encodable st = true)
    as <-.
  { rewrite mapM_is_Some, Forall_forall. split.
    - intros H c Hc. by apply marshalNRComponent_is_Some, H.
    - intros H c Hc. by apply marshalNRComponent_is_Some, H. }
  destruct (Components r) as [|c cs]; [cbn; split; by eexists|].
  destruct (mapM marshalNRComponent (c :: cs)); cbn;
    [split; by eexists|split; by intros [? ?]].
Qed.

End MarshalMore.
